(** * Energy loss, cavity time-lag and revolution frequency of an AT lattice

    A shallow embedding of [pyat/at/physics/energy_loss.py] and
    [pyat/at/physics/revolution.py], and the properties of the design
    description that can be stated about them.

    Conventions of the embedding.

    - Python floats and numpy arrays of floats are idealised as real numbers
      and lists of real numbers, every expression keeping the order of the
      operations of the source. The exceptions of Python's own float
      arithmetic are modelled: [math.sqrt] of a negative number raises
      ValueError, a division of a Python float by a zero Python float raises
      ZeroDivisionError, and a power [x ** n] of a Python float beyond the
      range of a double raises OverflowError ([ring.energy], [ring.gamma],
      the physical constants and the attributes of the elements are Python
      floats). Arithmetic with a numpy operand raises nothing and is written
      with the total operations of [R]. Rounding is outside the model: a
      statement about the last bit of a result is made on binary64 numbers
      ([etac_binary64]).
    - Exceptions are values of [result]; warnings, writes to [stderr] and
      calls into the tracking engine are recorded, in program order, in the
      log of the monad [M].
    - What the two modules import from the rest of the package or from scipy
      (tracking, closed orbit, path length, the combined RF accessors, the
      bounded least-squares solver, the physical constants) is taken as the
      fields of the class [Env]: the general theorems hold for any behaviour of
      these collaborators, and the module [Example] fixes one of them for
      the example rings. *)

From Stdlib Require Import Reals Lra Lia List String Ascii Bool ZArith.
From Stdlib Require PrimFloat Uint63.
Import ListNotations.

Open Scope string_scope.
Open Scope list_scope.
Open Scope R_scope.

(** ** Exceptions and the effect monad *)

(** The three uses of [AtError] that the two modules rely on. *)
Inductive at_error : Type :=
| Invalid_method            (* 'Invalid method: {}' *)
| Not_enough_RF_voltage     (* 'Not enough RF voltage: unstable ring' *)
| Wrong_radiation_state (needed : bool). (* raised by check_radiation(needed) *)

Inductive exn : Type :=
| AtError (e : at_error)
| NameError (name : string)
| KeyError (key : string)
| ValueError
| TypeError
| AttributeError (attr : string)
| IndexError
| ZeroDivisionError
| OverflowError.

Inductive result (A : Type) : Type :=
| Ok (a : A)
| Raise (e : exn).
Arguments Ok {A} a.
Arguments Raise {A} e.

(** Calls into the tracking engine, as the log records them. *)
Inductive call : Type :=
| Radiation_off_copy
| Find_orbit4 (dp : R) (keep_lattice : bool)
| Lattice_pass (particles : nat) (keep_lattice : bool).

Inductive event : Type :=
| FutureWarning (msg : string)
| Stderr (msg : string)
| Called (c : call).

Definition M (A : Type) : Type := (list event * result A)%type.

Definition ret {A} (a : A) : M A := ([], Ok a).
Definition raise {A} (e : exn) : M A := ([], Raise e).
Definition emit (ev : event) : M unit := ([ev], Ok tt).

Definition bind {A B} (m : M A) (k : A -> M B) : M B :=
  match m with
  | (l, Ok a) => let '(l', r) := k a in (l ++ l', r)
  | (l, Raise e) => (l, Raise e)
  end.

Definition lift {A} (r : result A) : M A := ([], r).

Notation "x <- c1 ;; c2" := (bind c1 (fun x => c2))
  (at level 61, c1 at next level, right associativity).
Notation "c1 ;; c2" := (bind c1 (fun _ => c2))
  (at level 61, right associativity).

Definition outcome {A} (m : M A) : result A := snd m.
Definition log {A} (m : M A) : list event := fst m.

(** ** Data model *)

(** A phase-space vector: x, x', y, y', dp, ct at indices 0..5. *)
Definition Vec6 : Type := list R.
Definition coord (v : Vec6) (i : nat) : R := nth i v 0.
Definition zeros (n : nat) : Vec6 := repeat 0 n.

Record DipoleT : Type := mkDipole {
  dip_Length : R;
  dip_BendingAngle : R;
  dip_PassMethod : string }.

(** [By] and [Bx] are the harmonic tables of the wiggler, one list per row. *)
Record WigglerT : Type := mkWiggler {
  wig_Length : R;
  wig_Bmax : R;
  wig_By : list (list R);
  wig_Bx : list (list R);
  wig_PassMethod : string }.

Record RFCavityT : Type := mkRFCavity {
  cav_Length : R;
  cav_Voltage : R;
  cav_Frequency : R;
  cav_TimeLag : R;
  cav_PassMethod : string }.

Inductive Element : Type :=
| Dipole (d : DipoleT)
| Wiggler (w : WigglerT)
| RFCavity (c : RFCavityT)
| OtherElement (family : string) (length : R).

Record Lattice : Type := mkLattice {
  elements : list Element;
  periodicity : Z;
  energy : R;
  radiation : bool;
  beta : R;
  gamma : R }.

(** Reference points: [None] is Python's [None], otherwise element indices. *)
Definition refpts : Type := option (list nat).

Inductive ELossMethod : Type := INTEGRAL | TRACKING.

(** What a caller can pass as [method]: a member of the enum, a string, or
    any other object. *)
Inductive method_arg : Type :=
| Method (m : ELossMethod)
| MethodStr (s : string)
| MethodOther.

(** Keywords of [Lattice.radiation_off]: [None] when the keyword is left to
    its default, [Some p] when it is passed ([Some None] is Python's None). *)
Record radiation_off_kw : Type := mkRadOffKw {
  kw_dipole_pass : option (option string);
  kw_quadrupole_pass : option (option string);
  kw_wiggler_pass : option (option string);
  kw_sextupole_pass : option (option string);
  kw_octupole_pass : option (option string) }.

Definition radiation_off_defaults : radiation_off_kw :=
  mkRadOffKw None None None None None.

Definition keep_magnets_radiating : radiation_off_kw :=
  mkRadOffKw (Some None) (Some None) (Some None) (Some None) (Some None).

(** ** Strings *)

Definition ascii_upper (c : ascii) : ascii :=
  let n := nat_of_ascii c in
  if ((97 <=? n) && (n <=? 122))%nat then ascii_of_nat (n - 32) else c.

(** Upper-casing of the ASCII letters of a string, the other bytes left
    as they are. *)
Fixpoint upper (s : string) : string :=
  match s with
  | EmptyString => EmptyString
  | String c s' => String (ascii_upper c) (upper s')
  end.

(** A string of ASCII characters only. *)
Definition ascii_is_ascii (c : ascii) : bool := (nat_of_ascii c <? 128)%nat.

Fixpoint is_ascii (s : string) : bool :=
  match s with
  | EmptyString => true
  | String c s' => ascii_is_ascii c && is_ascii s'
  end.

(** ELossMethod[name] *)
Definition ELossMethod_getitem (name : string) : result ELossMethod :=
  if String.eqb name "INTEGRAL" then Ok INTEGRAL
  else if String.eqb name "TRACKING" then Ok TRACKING
  else Raise (KeyError name).

(** str(member) *)
Definition ELossMethod_str (m : ELossMethod) : string :=
  match m with
  | INTEGRAL => "ELossMethod.INTEGRAL"
  | TRACKING => "ELossMethod.TRACKING"
  end.

(** ** Collaborators *)

Class Env : Type := mkEnv {
  (* at.physics / at.constants *)
  clight : R;
  Cgamma : R;
  e_mass : R;
  (* at.lattice.DConstant.DPStep *)
  DPStep : R;
  (* Lattice.get_rf_voltage, Lattice.get_rf_frequency: None when the call
     raises AtError *)
  get_rf_voltage : Lattice -> refpts -> option R;
  get_rf_frequency : Lattice -> refpts -> option R;
  (* scipy.optimize.least_squares(fun, x0, bounds=(lb, ub)).x[0]: None when
     the call raises ValueError *)
  least_squares : (R -> R) -> R -> R * R -> option R;
  (* at.tracking.lattice_pass: the particles after one turn *)
  lattice_pass : Lattice -> list Vec6 -> list Vec6;
  (* find_orbit4(ring, dp=...)[0] *)
  find_orbit4 : Lattice -> R -> Vec6;
  (* Lattice.radiation_off(..., copy=True) *)
  radiation_off : Lattice -> radiation_off_kw -> Lattice;
  (* get_s_pos(ring, refpts)[0] *)
  get_s_pos : Lattice -> nat -> R;
  (* str.upper of Python, on the text that a string encodes: a Unicode case
     mapping, of which the model fixes the ASCII part *)
  str_upper : string -> string;
  str_upper_ascii : forall s, is_ascii s = true -> str_upper s = upper s }.

(** ** Comparisons and numpy helpers *)

Definition Rgtb (x y : R) : bool := if Rgt_dec x y then true else false.
Definition Rltb (x y : R) : bool := if Rlt_dec x y then true else false.

(** numpy.sign *)
Definition numpy_sign (x : R) : R :=
  if Rltb x 0 then -1 else if Rgtb x 0 then 1 else 0.

(** numpy.sum *)
Definition numpy_sum (a : list R) : R := fold_left Rplus a 0.

(** Element-wise product of two arrays of the same shape. *)
Fixpoint array_mul (a b : list R) : list R :=
  match a, b with
  | x :: a', y :: b' => x * y :: array_mul a' b'
  | _, _ => []
  end.

(** numpy.amin: raises ValueError on an empty array. *)
Fixpoint amin_from (m : R) (a : list R) : R :=
  match a with
  | [] => m
  | x :: a' => amin_from (if Rltb x m then x else m) a'
  end.

Definition numpy_amin (a : list R) : result R :=
  match a with
  | [] => Raise ValueError
  | x :: a' => Ok (amin_from x a')
  end.

(** numpy.argmin: the index of the first occurrence of the minimum. *)
Fixpoint argmin_from (best : nat) (m : R) (i : nat) (a : list R) : nat :=
  match a with
  | [] => best
  | x :: a' =>
      if Rltb x m then argmin_from i x (S i) a'
      else argmin_from best m (S i) a'
  end.

Definition numpy_argmin (a : list R) : result nat :=
  match a with
  | [] => Raise ValueError
  | x :: a' => Ok (argmin_from 0%nat x 1%nat a')
  end.

(** ** Modelled parts of [at.lattice] *)

(** Modelled from the spec: [check_radiation], the decorator of
    [at.lattice] that guards a function on the radiation state of its ring
    ("fails otherwise", error kind PreconditionViolated). *)
Definition check_radiation {A} (needed : bool) (func : Lattice -> M A)
    (ring : Lattice) : M A :=
  if Bool.eqb (radiation ring) needed then func ring
  else raise (AtError (Wrong_radiation_state needed)).

Definition is_cavity (el : Element) : bool :=
  match el with RFCavity _ => true | _ => false end.

(** Modelled from the spec: [get_refpts(ring, RFCavity)], the
    cavity-selection query by element kind: the indices of the cavities. *)
Fixpoint get_refpts_from (i : nat) (els : list Element) : list nat :=
  match els with
  | [] => []
  | el :: els' =>
      if is_cavity el then i :: get_refpts_from (S i) els'
      else get_refpts_from (S i) els'
  end.

Definition get_refpts_RFCavity (ring : Lattice) : list nat :=
  get_refpts_from 0%nat (elements ring).

(** Modelled from the spec: [ring.select(cavpts)], the elements at the
    given reference points (IndexError out of range). *)
Fixpoint select (ring : Lattice) (pts : list nat) : result (list Element) :=
  match pts with
  | [] => Ok []
  | i :: pts' =>
      match nth_error (elements ring) i with
      | None => Raise IndexError
      | Some el =>
          match select ring pts' with
          | Ok els => Ok (el :: els)
          | Raise e => Raise e
          end
      end
  end.

(** Reading a cavity attribute [cav.<attr>] from each selected element;
    an element without the attribute raises AttributeError. *)
Fixpoint cavity_attr (attr : string) (get : RFCavityT -> R)
    (els : list Element) : result (list R) :=
  match els with
  | [] => Ok []
  | RFCavity c :: els' =>
      match cavity_attr attr get els' with
      | Ok vs => Ok (get c :: vs)
      | Raise e => Raise e
      end
  | _ :: _ => Raise (AttributeError attr)
  end.

(** Modelled from the spec: [set_value_refpts(ring, refpts, 'TimeLag',
    values, copy=copy)], the element-attribute bulk-set operation: the
    values are written, in order, onto the elements at the reference points;
    with [copy] the supplied lattice is left as it is and a shallow copy
    holding the replaced elements is returned, without it the supplied
    lattice is modified and nothing is returned. *)
Definition set_TimeLag (el : Element) (v : R) : Element :=
  match el with
  | RFCavity c =>
      RFCavity (mkRFCavity (cav_Length c) (cav_Voltage c) (cav_Frequency c)
                           v (cav_PassMethod c))
  | _ => el
  end.

Fixpoint update_at (i : nat) (f : Element -> Element) (els : list Element)
    : list Element :=
  match els, i with
  | [], _ => []
  | el :: els', O => f el :: els'
  | el :: els', S i' => el :: update_at i' f els'
  end.

Fixpoint assign_TimeLag (els : list Element) (pts : list nat)
    (values : list R) : list Element :=
  match pts, values with
  | i :: pts', v :: values' =>
      assign_TimeLag (update_at i (fun el => set_TimeLag el v) els)
                     pts' values'
  | _, _ => els
  end.

Definition with_elements (ring : Lattice) (els : list Element) : Lattice :=
  mkLattice els (periodicity ring) (energy ring) (radiation ring)
            (beta ring) (gamma ring).

(** The pair is (the supplied lattice after the call, the returned value). *)
Definition set_value_refpts_TimeLag (ring : Lattice) (pts : list nat)
    (values : list R) (copy : bool) : Lattice * option Lattice :=
  let newring :=
    with_elements ring (assign_TimeLag (elements ring) pts values) in
  if copy then (ring, Some newring) else (newring, None).

(** ** Name resolution in [energy_loss.py] *)

Inductive pyobj : Type :=
| PyFloat (x : R)
| PyNumpy            (* the numpy module *)
| PyObject.          (* any other object *)

Fixpoint assoc (n : string) (scope : list (string * pyobj)) : option pyobj :=
  match scope with
  | [] => None
  | (k, v) :: scope' => if String.eqb n k then Some v else assoc n scope'
  end.

(** Keywords that [get_slip_factor] forwards to [get_mcf]: [None] when the
    keyword is absent. *)
Record mcf_kwargs : Type := mkMcfKw {
  kw_dp : option R;
  kw_keep_lattice : option bool;
  kw_DPStep : option R }.

(** What a call of [set_cavity_phase] leaves behind: the supplied lattice
    after the call and the value returned to the caller ([None] is Python's
    None). *)
Record phase_call : Type := mkPhaseCall {
  ring_after : Lattice;
  returned : option Lattice }.

(** The notice that [set_cavity_phase] prints on stderr (its line breaks
    are left out). *)
Definition time_reference_notice : string :=
  "This function modifies the time reference. This should be avoided, you have been warned!".

(** ** The arithmetic of Python floats *)

(** The largest finite double, 2^1024 - 2^971. *)
Definition float_max : R := IZR (2 ^ 1024 - 2 ^ 971).

Definition in_float_range (x : R) : Prop := Rabs x <= float_max.

Definition Reqb (x y : R) : bool := if Req_dec_T x y then true else false.

(** math.sqrt(x) *)
Definition math_sqrt (x : R) : result R :=
  if Rltb x 0 then Raise ValueError else Ok (sqrt x).

(** x / y, both Python floats *)
Definition float_div (x y : R) : result R :=
  if Reqb y 0 then Raise ZeroDivisionError else Ok (x / y).

(** x ** n, x a Python float *)
Definition float_pow (x : R) (n : nat) : result R :=
  if Rgtb (Rabs (x ^ n)) float_max then Raise OverflowError else Ok (x ^ n).

Definition and_then {A B : Type} (r : result A) (k : A -> result B)
    : result B :=
  match r with
  | Ok a => k a
  | Raise e => Raise e
  end.

Notation "x <~ r ;; k" := (and_then r (fun x => k))
  (at level 61, r at next level, right associativity).

(** Passes the value of a step that returned to the steps that follow. *)
Tactic Notation "next_step" := cbv beta iota delta [and_then].
Tactic Notation "next_step" "in" hyp(H) :=
  cbv beta iota delta [and_then] in H.

Section EnergyLoss.
Context {env : Env}.

(** *** energy_loss.py *)

(** table[1, :], the second row of a table. *)
Definition row1 (table : list (list R)) : result (list R) :=
  match nth_error table 1 with
  | Some row => Ok row
  | None => Raise IndexError
  end.

Definition wiggler_i2 (Brho : R) (wiggler : WigglerT) : result R :=
  rhoinv <~ float_div (wig_Bmax wiggler) Brho;;
  coefh <~ row1 (wig_By wiggler);;
  coefv <~ row1 (wig_Bx wiggler);;
  rhoinv2 <~ float_pow rhoinv 2;;
  Ok (wig_Length wiggler
      * (numpy_sum (array_mul coefh coefh) + numpy_sum (array_mul coefv coefv))
      * rhoinv2 / 2).

Definition dipole_i2 (dipole : DipoleT) : result R :=
  angle2 <~ float_pow (dip_BendingAngle dipole) 2;;
  float_div angle2 (dip_Length dipole).

(** One iteration of [for el in ring]. *)
Definition i2_step (Brho : R) (i2 : R) (el : Element) : result R :=
  match el with
  | Dipole d => term <~ dipole_i2 d;; Ok (i2 + term)
  | Wiggler w =>
      if negb (String.eqb (wig_PassMethod w) "DriftPass")
      then term <~ wiggler_i2 Brho w;; Ok (i2 + term)
      else Ok i2
  | _ => Ok i2
  end.

(** The loop [for el in ring], from the value of [i2] it starts with. *)
Fixpoint i2_loop (Brho : R) (i2 : R) (els : list Element) : result R :=
  match els with
  | [] => Ok i2
  | el :: els' => i2' <~ i2_step Brho i2 el;; i2_loop Brho i2' els'
  end.

Definition integral (ring : Lattice) : result R :=
  energy2 <~ float_pow (energy ring) 2;;
  e_mass2 <~ float_pow e_mass 2;;
  root <~ math_sqrt (energy2 - e_mass2);;
  Brho <~ float_div root clight;;
  i2 <~ i2_loop Brho 0 (elements ring);;
  energy4 <~ float_pow (energy ring) 4;;
  let e_loss := Cgamma / 2 / PI * energy4 * i2 in
  Ok e_loss.

Definition tracking_body (ring : Lattice) : M R :=
  emit (Called Radiation_off_copy);;
  let ringtmp := radiation_off ring keep_magnets_radiating in
  let o0 := zeros 6 in
  emit (Called (Lattice_pass 1 false));;
  let o6 := nth 0%nat (lattice_pass ringtmp [o0]) [] in
  ret (- coord o6 4 * energy ring).

Definition tracking : Lattice -> M R := check_radiation true tracking_body.

Definition get_energy_loss (ring : Lattice) (method : method_arg) : M R :=
  method <- match method with
            | MethodStr s =>
                m <- lift (ELossMethod_getitem (str_upper s));;
                emit (FutureWarning
                        (String.append "You should use " (ELossMethod_str m)));;
                ret (Method m)
            | _ => ret method
            end;;
  match method with
  | Method INTEGRAL =>
      loss <- lift (integral ring);;
      ret (IZR (periodicity ring) * loss)
  | Method TRACKING =>
      loss <- tracking ring;;
      ret (IZR (periodicity ring) * loss)
  | _ => raise (AtError Invalid_method)
  end.

(** Names bound at module level by the import statements and the
    definitions of the module. *)
Definition module_globals : list (string * pyobj) :=
  [("sys", PyObject); ("Enum", PyObject); ("warn", PyObject);
   ("sqrt", PyObject); ("pi", PyFloat PI); ("numpy", PyNumpy);
   ("least_squares", PyObject); ("Lattice", PyObject); ("Dipole", PyObject);
   ("Wiggler", PyObject); ("RFCavity", PyObject);
   ("check_radiation", PyObject); ("AtError", PyObject);
   ("checktype", PyObject); ("get_refpts", PyObject);
   ("set_value_refpts", PyObject); ("lattice_pass", PyObject);
   ("clight", PyFloat clight); ("Cgamma", PyFloat Cgamma);
   ("e_mass", PyFloat e_mass); ("__all__", PyObject);
   ("ELossMethod", PyObject); ("get_energy_loss", PyObject);
   ("get_timelag_fromU0", PyObject); ("set_cavity_phase", PyObject)].

(** Evaluation of a name: the local scope first, then the module's; a name
    bound in neither raises NameError (no builtin carries one of the names
    that the functions below look up this way). *)
Definition load_name (locals : list (string * pyobj)) (n : string)
    : result pyobj :=
  match assoc n (locals ++ module_globals) with
  | Some o => Ok o
  | None => Raise (NameError n)
  end.

Definition as_float (o : pyobj) : result R :=
  match o with
  | PyFloat x => Ok x
  | _ => Raise TypeError
  end.

(** <object>.ones: numpy's [ones] when the object is the numpy module. *)
Definition getattr_ones (o : pyobj) : result (nat -> list R) :=
  match o with
  | PyNumpy => Ok (fun n => repeat 1 n)
  | _ => Raise (AttributeError "ones")
  end.

(** len(cavpts) *)
Definition len (cavpts : refpts) : result nat :=
  match cavpts with
  | Some pts => Ok (List.length pts)
  | None => Raise TypeError
  end.

(** The two lambdas of the fallback path. *)
Definition eq_fun (rfv freq : list R) (u0 : R) (x : R) : R :=
  numpy_sum (array_mul rfv (map (fun f => sin (2 * PI * f * x / clight)) freq))
  - u0.

Definition deq_fun (rfv freq : list R) (x : R) : R :=
  numpy_sum (array_mul rfv (map (fun f => cos (2 * PI * f * x / clight)) freq)).

(** least_squares(...).x[0] *)
Definition solve (f : R -> R) (x0 : R) (bounds : R * R) : result R :=
  match least_squares f x0 bounds with
  | Some x => Ok x
  | None => Raise ValueError
  end.

(** The [except AtError] branch. *)
Definition timelag_fallback (ring : Lattice) (u0 : R) (cavpts : refpts)
    : result (list R) :=
  let cavpts := match cavpts with
                | None => get_refpts_RFCavity ring
                | Some pts => pts
                end in
  match select ring cavpts with Raise e => Raise e | Ok cavs =>
  match cavity_attr "Frequency" cav_Frequency cavs with
  | Raise e => Raise e | Ok freq =>
  match cavity_attr "Voltage" cav_Voltage cavs with
  | Raise e => Raise e | Ok rfv =>
  match cavity_attr "TimeLag" cav_TimeLag cavs with
  | Raise e => Raise e | Ok tl0 =>
  if Rgtb u0 (numpy_sum rfv) then Raise (AtError Not_enough_RF_voltage) else
  match numpy_amin freq with Raise e => Raise e | Ok fmin =>
  let ctmax := 1 / fmin * clight / 2 in
  let eq := eq_fun rfv freq u0 in
  let deq := deq_fun rfv freq in
  match solve deq (ctmax / 2) (0, ctmax) with
  | Raise e => Raise e | Ok zero_diff =>
  let locals := [("u0", PyFloat u0); ("ctmax", PyFloat ctmax);
                 ("zero_diff", PyFloat zero_diff); ("ring", PyObject);
                 ("method", PyObject); ("cavpts", PyObject);
                 ("freq", PyObject); ("rfv", PyObject); ("tl0", PyObject);
                 ("eq", PyObject); ("deq", PyObject)] in
  match (if Rgtb (numpy_sign (deq (zero_diff - 1.0e-6))) 0
         then solve eq (zero_diff / 2) (0, zero_diff)
         else match load_name locals "zero_cross" with
              | Raise e => Raise e
              | Ok o =>
                  match as_float o with
                  | Raise e => Raise e
                  | Ok zero_cross =>
                      solve eq ((ctmax - zero_diff) / 2) (zero_cross, ctmax)
                  end
              end)
  with Raise e => Raise e | Ok phis =>
  match numpy_argmin freq with Raise e => Raise e | Ok k =>
  Ok (map (fun t => phis + t - nth k tl0 0) tl0)
  end end end end end end end end.

(** The [else] branch of the [try]. *)
Definition timelag_single (u0 rfv freq : R) (cavpts : refpts)
    : result (list R) :=
  if Rgtb u0 rfv then Raise (AtError Not_enough_RF_voltage) else
  let t := clight / (2 * PI * freq) * asin (u0 / rfv) in
  let locals := [("u0", PyFloat u0); ("rfv", PyFloat rfv);
                 ("freq", PyFloat freq); ("ring", PyObject);
                 ("method", PyObject); ("cavpts", PyObject)] in
  match load_name locals "np" with Raise e => Raise e | Ok np =>
  match getattr_ones np with Raise e => Raise e | Ok ones =>
  match len cavpts with Raise e => Raise e | Ok n =>
  Ok (map (fun o => t * o) (ones n))
  end end end.

Definition get_timelag_fromU0 (ring : Lattice) (method : method_arg)
    (cavpts : refpts) : M (list R) :=
  u0 <- get_energy_loss ring method;;
  match get_rf_voltage ring cavpts with
  | None => lift (timelag_fallback ring u0 cavpts)
  | Some rfv =>
      match get_rf_frequency ring cavpts with
      | None => lift (timelag_fallback ring u0 cavpts)
      | Some freq => lift (timelag_single u0 rfv freq cavpts)
      end
  end.

Definition set_cavity_phase (ring : Lattice) (method : method_arg)
    (refpts_kw cavpts : refpts) (copy : bool) : M phase_call :=
  cavpts <- match cavpts, refpts_kw with
            | None, Some pts =>
                emit (FutureWarning
                        "You should use 'cavpts' instead of 'refpts'");;
                ret pts
            | None, None => ret (get_refpts_RFCavity ring)
            | Some pts, _ => ret pts
            end;;
  timelag <- get_timelag_fromU0 ring method (Some cavpts);;
  let '(ring', _) := set_value_refpts_TimeLag ring cavpts timelag copy in
  emit (Stderr time_reference_notice);;
  ret (mkPhaseCall ring' None).

(** *** revolution.py *)

Definition get_mcf_body (kw : mcf_kwargs) (ring : Lattice) : M R :=
  let dp := match kw_dp kw with Some v => v | None => 0 end in
  let keep_lattice :=
    match kw_keep_lattice kw with Some b => b | None => false end in
  let dp_step := match kw_DPStep kw with Some v => v | None => DPStep end in
  emit (Called (Find_orbit4 (dp - 0.5 * dp_step) keep_lattice));;
  let fp_a := find_orbit4 ring (dp - 0.5 * dp_step) in
  emit (Called (Find_orbit4 (dp + 0.5 * dp_step) true));;
  let fp_b := find_orbit4 ring (dp + 0.5 * dp_step) in
  emit (Called (Lattice_pass 2 true));;
  let b := lattice_pass ring [fp_a; fp_b] in
  let ring_length := get_s_pos ring (List.length (elements ring)) in
  let alphac :=
    (coord (nth 1%nat b []) 5 - coord (nth 0%nat b []) 5)
    / dp_step / ring_length in
  ret alphac.

Definition get_mcf (ring : Lattice) (kw : mcf_kwargs) : M R :=
  check_radiation false (get_mcf_body kw) ring.


Definition get_revolution_frequency (ring : Lattice) (dp dct : option R)
    : M R :=
  let lcell := get_s_pos ring (List.length (elements ring)) in
  let frev := beta ring * clight / lcell / IZR (periodicity ring) in
  match dct, dp with
  | Some dct, _ => ret (frev * (lcell / (lcell + dct)))
  | None, Some dp =>
      rnorad <- (if radiation ring
                 then emit (Called Radiation_off_copy);;
                      ret (radiation_off ring radiation_off_defaults)
                 else ret ring);;
      emit (Called (Find_orbit4 dp false));;
      let orbit0 := find_orbit4 rnorad dp in
      emit (Called (Lattice_pass 1 false));;
      let orbit := lattice_pass rnorad [orbit0] in
      let dct := coord (nth 0%nat orbit []) 5 in
      ret (frev * (lcell / (lcell + dct)))
  | None, None => ret frev
  end.

End EnergyLoss.

(** ** The properties of the design description, as definitions *)

Section Described.
Context {env : Env}.

(** The sum of a list of contributions. *)
Definition total (contributions : list R) : R :=
  fold_right Rplus 0 contributions.

(** The harmonic coefficients of a wiggler table: its second row. *)
Definition harmonic_coefficients (table : list (list R)) : list R :=
  match table with
  | _ :: coefficients :: _ => coefficients
  | _ => []
  end.

(** A table that has a row of harmonic coefficients. *)
Definition has_harmonics (table : list (list R)) : Prop :=
  (2 <= List.length table)%nat.

Definition sum_of_squares (coefficients : list R) : R :=
  fold_left (fun sum c => sum + c * c) coefficients 0.

(** Brho = sqrt(energy^2 - restMassEnergy^2) / c *)
Definition described_Brho (ring : Lattice) : R :=
  sqrt (energy ring ^ 2 - e_mass ^ 2) / clight.

(** What an element adds to the second radiation integral, [None] for an
    element that adds nothing: bendingAngle^2 / length for a dipole,
    length * (sum of squares of the harmonics of the two tables)
    * (peakField / Brho)^2 / 2 for a wiggler that is not in DriftPass. *)
Definition contribution (Brho : R) (el : Element) : option R :=
  match el with
  | Dipole d => Some (dip_BendingAngle d ^ 2 / dip_Length d)
  | Wiggler w =>
      if String.eqb (wig_PassMethod w) "DriftPass" then None
      else Some (wig_Length w
                 * (sum_of_squares (harmonic_coefficients (wig_By w))
                    + sum_of_squares (harmonic_coefficients (wig_Bx w)))
                 * (wig_Bmax w / Brho) ^ 2 / 2)
  | _ => None
  end.

Definition add_contribution (Brho : R) (I2 : R) (el : Element) : R :=
  match contribution Brho el with
  | Some c => I2 + c
  | None => I2
  end.

(** The second radiation integral of section 4.1, the contributions added
    one after the other in the order of the lattice. *)
Definition described_I2 (ring : Lattice) : R :=
  fold_left (add_contribution (described_Brho ring)) (elements ring) 0.

(** The element is one on which the arithmetic of its contribution is
    defined. *)
Definition element_defined (Brho : R) (el : Element) : Prop :=
  match el with
  | Dipole d => in_float_range (dip_BendingAngle d ^ 2) /\ dip_Length d <> 0
  | Wiggler w =>
      String.eqb (wig_PassMethod w) "DriftPass" = false ->
      Brho <> 0
      /\ has_harmonics (wig_By w)
      /\ has_harmonics (wig_Bx w)
      /\ in_float_range ((wig_Bmax w / Brho) ^ 2)
  | _ => True
  end.

(** The loss of section 4.1, with the operations in the order in which the
    code makes them. *)
Definition described_energy_loss (ring : Lattice) : R :=
  IZR (periodicity ring)
  * (Cgamma / 2 / PI * energy ring ^ 4 * described_I2 ring).

(** The lattices on which the arithmetic of the radiation integral is
    defined: the energy is not below the rest energy, no dipole has a zero
    length, Brho is not zero where a wiggler needs it and the tables of
    such a wiggler have their row of harmonics, no power leaves the range
    of a double and the periodicity converts to a double. *)
Definition arithmetic_defined (ring : Lattice) : Prop :=
  in_float_range (IZR (periodicity ring))
  /\ in_float_range (energy ring ^ 2)
  /\ in_float_range (e_mass ^ 2)
  /\ 0 <= energy ring ^ 2 - e_mass ^ 2
  /\ clight <> 0
  /\ in_float_range (energy ring ^ 4)
  /\ (forall d, In (Dipole d) (elements ring) ->
                in_float_range (dip_BendingAngle d ^ 2)
                /\ dip_Length d <> 0)
  /\ (forall w, In (Wiggler w) (elements ring) ->
                String.eqb (wig_PassMethod w) "DriftPass" = false ->
                described_Brho ring <> 0
                /\ has_harmonics (wig_By w)
                /\ has_harmonics (wig_Bx w)
                /\ in_float_range ((wig_Bmax w / described_Brho ring) ^ 2)).

(** Claim of sections 4.1 and 4.3 as it is stated: on every lattice the INTEGRAL
    method returns the described loss. *)
Definition loss_is_described (ring : Lattice) : Prop :=
  get_energy_loss ring (Method INTEGRAL) = ret (described_energy_loss ring).

(** The cavity set a call works on, and its attributes, when every selected
    element is a cavity. *)
Definition cavity_points (ring : Lattice) (cavpts : refpts) : list nat :=
  match cavpts with
  | None => get_refpts_RFCavity ring
  | Some pts => pts
  end.

Definition cavity_set_attr (ring : Lattice) (cavpts : refpts)
    (attr : string) (get : RFCavityT -> R) : result (list R) :=
  match select ring (cavity_points ring cavpts) with
  | Raise e => Raise e
  | Ok cavs => cavity_attr attr get cavs
  end.

(** True when the call takes the single-frequency path. *)
Definition single_frequency (ring : Lattice) (cavpts : refpts) : bool :=
  match get_rf_voltage ring cavpts, get_rf_frequency ring cavpts with
  | Some _, Some _ => true
  | _, _ => false
  end.

(** The voltage the energy loss is compared with: the combined voltage on
    the single-frequency path, the sum of the cavities' voltages on the
    fallback path. *)
Definition available_voltage (ring : Lattice) (cavpts : refpts) : option R :=
  match get_rf_voltage ring cavpts, get_rf_frequency ring cavpts with
  | Some rfv, Some _ => Some rfv
  | _, _ =>
      match cavity_set_attr ring cavpts "Voltage" cav_Voltage with
      | Ok rfv => Some (numpy_sum rfv)
      | Raise _ => None
      end
  end.

(** Claim of section 4.4 on the reference cavity: in the returned
    assignment the cavity with the lowest frequency has the time-lag it had
    before the call. *)
Definition reference_keeps_its_timelag (ring : Lattice)
    (method : method_arg) (cavpts : refpts) : Prop :=
  forall timelag freq tl0 k,
    single_frequency ring cavpts = false ->
    outcome (get_timelag_fromU0 ring method cavpts) = Ok timelag ->
    cavity_set_attr ring cavpts "Frequency" cav_Frequency = Ok freq ->
    cavity_set_attr ring cavpts "TimeLag" cav_TimeLag = Ok tl0 ->
    numpy_argmin freq = Ok k ->
    nth k timelag 0 = nth k tl0 0.

(** The errors that section 7 files under InvalidArgument. *)
Definition invalid_argument (e : exn) : bool :=
  match e with
  | AtError Invalid_method => true
  | KeyError _ => true
  | _ => false
  end.

End Described.

Definition ascii_lower (c : ascii) : ascii :=
  let n := nat_of_ascii c in
  if ((65 <=? n) && (n <=? 90))%nat then ascii_of_nat (n + 32) else c.

Fixpoint lower (s : string) : string :=
  match s with
  | EmptyString => EmptyString
  | String c s' => String (ascii_lower c) (lower s')
  end.

(** Two strings that differ at most in the case of their letters. *)
Definition same_ignoring_case (s t : string) : bool :=
  String.eqb (lower s) (lower t).

Definition ELossMethod_name (m : ELossMethod) : string :=
  match m with
  | INTEGRAL => "INTEGRAL"
  | TRACKING => "TRACKING"
  end.

(** ** Example rings *)

Module Example.

(** A bounded solver that answers only with an exact root of the objective:
    the seed when the objective vanishes there, otherwise the lower bound
    when it vanishes there. As scipy's solver does, it refuses bounds that
    are not strictly ordered and a seed outside the bounds. *)
Definition exact_root_solver (f : R -> R) (x0 : R) (bounds : R * R)
    : option R :=
  let '(lb, ub) := bounds in
  if Rltb lb ub && negb (Rltb x0 lb) && negb (Rltb ub x0) then
    if Req_dec_T (f x0) 0 then Some x0
    else if Req_dec_T (f lb) 0 then Some lb
    else None
  else None.

Definition all_equal (x : R) (l : list R) : bool :=
  forallb (fun y => if Req_dec_T x y then true else false) l.

(** Modelled from the spec: the combined RF frequency accessor of the
    lattice, which fails when the cavities of the set do not share one
    frequency. *)
Definition combined_frequency (ring : Lattice) (cavpts : refpts) : option R :=
  match cavity_set_attr ring cavpts "Frequency" cav_Frequency with
  | Ok (f :: fs) => if all_equal f fs then Some f else None
  | _ => None
  end.

(** Modelled from the spec: the combined RF voltage accessor of the
    lattice, the total voltage of a cavity set that shares one frequency. *)
Definition combined_voltage (ring : Lattice) (cavpts : refpts) : option R :=
  match combined_frequency ring cavpts,
        cavity_set_attr ring cavpts "Voltage" cav_Voltage with
  | Some _, Ok vs => Some (numpy_sum vs)
  | _, _ => None
  end.

Definition element_length (el : Element) : R :=
  match el with
  | Dipole d => dip_Length d
  | Wiggler w => wig_Length w
  | RFCavity c => cav_Length c
  | OtherElement _ l => l
  end.

(** The collaborators of the examples. The tracking engine is a stand-in
    (the identity map): the examples compute the energy loss with the
    INTEGRAL method and never reach it. *)
Definition env : Env :=
  {| clight := 299792458;
     Cgamma := 8.846e-32;
     e_mass := 510998.95;
     DPStep := 1.0e-6;
     get_rf_voltage := combined_voltage;
     get_rf_frequency := combined_frequency;
     least_squares := exact_root_solver;
     lattice_pass := fun _ particles => particles;
     find_orbit4 := fun _ dp => [0; 0; 0; 0; dp; 0];
     radiation_off := fun ring _ =>
       mkLattice (elements ring) (periodicity ring) (energy ring) false
                 (beta ring) (gamma ring);
     get_s_pos := fun ring n =>
       total (map element_length (firstn n (elements ring)));
     str_upper := upper;
     str_upper_ascii := fun s _ => eq_refl |}.

(** The frequency at which one metre of time-lag is one radian of phase. *)
Definition f_main : R := 299792458 / (2 * PI).

Definition main_rf (voltage timelag : R) : RFCavityT :=
  mkRFCavity 0 voltage f_main timelag "RFCavityPass".

(** A third-harmonic cavity. *)
Definition harmonic_rf (voltage timelag : R) : RFCavityT :=
  mkRFCavity 0 voltage (3 * f_main) timelag "RFCavityPass".

Definition main_cavity (voltage timelag : R) : Element :=
  RFCavity (main_rf voltage timelag).

Definition harmonic_cavity (voltage timelag : R) : Element :=
  RFCavity (harmonic_rf voltage timelag).

Definition drift : Element := OtherElement "Drift" 1.

Definition ring_of (els : list Element) : Lattice :=
  mkLattice els 1 6e9 false 1 (6e9 / 510998.95).

(** One cavity: the single-frequency path. *)
Definition ring_single : Lattice :=
  ring_of [drift; main_cavity 1e6 0].

(** A main cavity and a third-harmonic cavity. *)
Definition two_cavity_ring (v1 t1 v3 t3 : R) : Lattice :=
  ring_of [drift; main_cavity v1 t1; harmonic_cavity v3 t3].

(** The harmonic cavity at a quarter of the main voltage, with time-lags
    0.1 and 0.3. *)
Definition ring_harmonic : Lattice := two_cavity_ring 4e6 0.1 1e6 0.3.

(** The harmonic cavity at the voltage of the main cavity. *)
Definition ring_strong_harmonic : Lattice := two_cavity_ring 1e6 0 1e6 0.

(** A bending magnet and a cavity whose voltage is below the loss. *)
Definition ring_unstable : Lattice :=
  ring_of [Dipole (mkDipole 1 0.1 "BndMPoleSymplectic4Pass");
           main_cavity 1e5 0].

(** The single-cavity ring with radiation switched on. *)
Definition ring_radiating : Lattice :=
  mkLattice (elements ring_single) 1 6e9 true 1 (6e9 / 510998.95).

Definition no_kwargs : mcf_kwargs := mkMcfKw None None None.

End Example.

(** ** revolution.py: setting the RF frequency *)

(** The values that the keywords of the frequency functions carry: None, a
    float, or a boolean (which Python counts as 0 or 1). *)
Inductive pyval : Type :=
| VNone
| VFloat (x : R)
| VBool (b : bool).

(** A keyword dictionary. A key is looked up at its first entry and removed
    at all of them, so that the list behaves as a dict whatever it holds. *)
Definition kwargs : Type := list (string * pyval).

Fixpoint kw_get (key : string) (kw : kwargs) : option pyval :=
  match kw with
  | [] => None
  | (k, v) :: kw' => if String.eqb key k then Some v else kw_get key kw'
  end.

Definition kw_remove (key : string) (kw : kwargs) : kwargs :=
  filter (fun entry => negb (String.eqb key (fst entry))) kw.

(** kwargs.pop(key, None) *)
Definition kw_pop (key : string) (kw : kwargs) : pyval * kwargs :=
  (match kw_get key kw with Some v => v | None => VNone end,
   kw_remove key kw).

(** The number a keyword value stands for; [None] for Python's None. *)
Definition as_number (v : pyval) : option R :=
  match v with
  | VNone => None
  | VFloat x => Some x
  | VBool b => Some (if b then 1 else 0)
  end.

(** What [revolution.py] uses of the lattice beyond [Env]. *)
Class CavityAccess : Type := mkCavityAccess {
  (* ring.harmonic_number *)
  harmonic_number : Lattice -> Z;
  (* ring.set_cavity(Frequency=frequency, **kwargs): the object returned,
     [None] for Python's None *)
  set_cavity : Lattice -> R -> kwargs -> result (option Lattice) }.

Section FrequencyControl.
Context {env : Env} {cav : CavityAccess}.

Definition set_rf_frequency (ring : Lattice) (frequency dp dct : option R)
    (kw : kwargs) : M (option Lattice) :=
  frequency <- match frequency with
               | None =>
                   frev <- get_revolution_frequency ring dp dct;;
                   ret (frev * IZR (harmonic_number ring))
               | Some f => ret f
               end;;
  lift (set_cavity ring frequency kw).

(** The call [set_rf_frequency(ring, **kws)]: the keywords named in the
    signature are bound to the parameters, the others stay in [kwargs]. *)
Definition call_set_rf_frequency (ring : Lattice) (kws : kwargs)
    : M (option Lattice) :=
  let '(frequency, kws) := kw_pop "frequency" kws in
  let '(dp, kws) := kw_pop "dp" kws in
  let '(dct, kws) := kw_pop "dct" kws in
  set_rf_frequency ring (as_number frequency) (as_number dp) (as_number dct)
                   kws.

(** The loop [for key in ['dp', 'dct', 'df']] of the wrapper: the pair is
    (momargs, what is left of kwargs). *)
Fixpoint collect_momargs (keys : list string) (kw : kwargs)
    : kwargs * kwargs :=
  match keys with
  | [] => ([], kw)
  | key :: keys' =>
      let '(v, kw) := kw_pop key kw in
      let '(momargs, kw) := collect_momargs keys' kw in
      match v with
      | VNone => (momargs, kw)
      | _ => ((key, v) :: momargs, kw)
      end
  end.

(** [frequency_control(func)(ring, **kwargs)]; the positional arguments
    after [ring] are handed on as they are and are part of [func] here. The
    wrapped function receives whatever [set_rf_frequency] returned. *)
Definition frequency_control {A : Type}
    (func : option Lattice -> kwargs -> M A) (ring : Lattice) (kw : kwargs)
    : M A :=
  if radiation ring then
    let '(momargs, kw) := collect_momargs ["dp"; "dct"; "df"] kw in
    if (0 <? List.length momargs)%nat then
      ring' <- call_set_rf_frequency ring
                 (momargs ++ [("copy", VBool true)]);;
      func ring' kw
    else func (Some ring) kw
  else func (Some ring) kw.

End FrequencyControl.

(** ** Definitions for the further properties *)

(** The keywords left once dp, dct and df are taken out. *)
Definition without_control_keys (kw : kwargs) : kwargs :=
  kw_remove "df" (kw_remove "dct" (kw_remove "dp" kw)).

(** A keyword that is absent or None. *)
Definition kw_unset (key : string) (kw : kwargs) : bool :=
  match kw_get key kw with
  | None | Some VNone => true
  | Some _ => false
  end.

(** The entry of a keyword that is given a value other than None. *)
Definition kw_given (key : string) (kw : kwargs) : kwargs :=
  match kw_get key kw with
  | None | Some VNone => []
  | Some v => [(key, v)]
  end.

(** The momentum keywords that a call gives a value. *)
Definition momargs_of (kw : kwargs) : kwargs :=
  kw_given "dp" kw ++ kw_given "dct" kw ++ kw_given "df" kw.

(** The reference points that [set_cavity_phase] works on. *)
Definition resolved_cavpts (ring : Lattice) (refpts_kw cavpts : refpts)
    : list nat :=
  match cavpts, refpts_kw with
  | Some pts, _ => pts
  | None, Some pts => pts
  | None, None => get_refpts_RFCavity ring
  end.

(** ** Line 80 of revolution.py on binary64 numbers *)





Module Probe.

(** A ring without cavity. *)
Definition ring_no_cavity : Lattice := Example.ring_of [Example.drift].

(** A bending magnet of two metres. *)
Definition bend (angle : R) : Element :=
  Dipole (mkDipole 2 angle "BndMPoleSymplectic4Pass").

(** A bending magnet, a drift and a wiggler with two harmonics in its
    horizontal table and one in its vertical table. *)
Definition wiggler : Element :=
  Wiggler (mkWiggler 2 1 [[1; 1]; [0.6; 0.8]; [1; 3]] [[1]; [0.5]; [1]]
                     "GWigSymplecticPass").

Definition ring_wiggler : Lattice :=
  Example.ring_of [bend 0.1; Example.drift; wiggler].

(** A bending magnet of zero length (a thin kick). *)
Definition ring_thin_dipole : Lattice :=
  Example.ring_of [Dipole (mkDipole 0 0.1 "BndMPoleSymplectic4Pass")].

(** A cavity access that answers every call with the lattice itself. *)
Definition cavity_access : CavityAccess :=
  {| harmonic_number := fun _ => 992%Z;
     set_cavity := fun ring _ _ => Ok (Some ring) |}.

End Probe.

(** * Properties *)

(** ** Comparisons *)

Lemma Rgtb_true (x y : R) : Rgtb x y = true <-> x > y.
Proof.
  unfold Rgtb; destruct (Rgt_dec x y); split; intros; congruence || tauto.
Qed.

Lemma Rgtb_false (x y : R) : Rgtb x y = false <-> x <= y.
Proof.
  unfold Rgtb; destruct (Rgt_dec x y); split; intros; try congruence; lra.
Qed.

Lemma Rltb_true (x y : R) : Rltb x y = true <-> x < y.
Proof.
  unfold Rltb; destruct (Rlt_dec x y); split; intros; congruence || tauto.
Qed.

Lemma Rltb_false (x y : R) : Rltb x y = false <-> y <= x.
Proof.
  unfold Rltb; destruct (Rlt_dec x y); split; intros; try congruence; lra.
Qed.

(** ** The arithmetic of Python floats *)

Lemma float_max_large : 10 ^ 40 <= float_max.
Proof.
  unfold float_max; rewrite pow_IZR.
  apply IZR_le; vm_compute; discriminate.
Qed.

Lemma small_in_float_range (x : R) : Rabs x <= 10 ^ 40 -> in_float_range x.
Proof.
  intros H; unfold in_float_range; pose proof float_max_large; lra.
Qed.

Lemma float_pow_Ok (x : R) (n : nat) :
  in_float_range (x ^ n) -> float_pow x n = Ok (x ^ n).
Proof.
  intros H; unfold float_pow.
  now rewrite (proj2 (Rgtb_false _ _) H).
Qed.

Lemma float_pow_inv (x : R) (n : nat) (v : R) :
  float_pow x n = Ok v -> in_float_range (x ^ n) /\ v = x ^ n.
Proof.
  unfold float_pow; destruct (Rgtb (Rabs (x ^ n)) float_max) eqn:E;
    [discriminate|].
  intros H; injection H as <-; split; [now apply Rgtb_false | reflexivity].
Qed.

Lemma float_div_Ok (x y : R) : y <> 0 -> float_div x y = Ok (x / y).
Proof.
  intros H; unfold float_div, Reqb.
  destruct (Req_dec_T y 0); [contradiction | reflexivity].
Qed.

Lemma float_div_zero (x : R) : float_div x 0 = Raise ZeroDivisionError.
Proof.
  unfold float_div, Reqb.
  destruct (Req_dec_T 0 0) as [_|H]; [reflexivity | now contradiction H].
Qed.

Lemma float_div_inv (x y v : R) :
  float_div x y = Ok v -> y <> 0 /\ v = x / y.
Proof.
  unfold float_div, Reqb; destruct (Req_dec_T y 0); [discriminate|].
  intros H; injection H as <-; now split.
Qed.

Lemma math_sqrt_Ok (x : R) : 0 <= x -> math_sqrt x = Ok (sqrt x).
Proof.
  intros H; unfold math_sqrt.
  now rewrite (proj2 (Rltb_false _ _) H).
Qed.

Lemma math_sqrt_negative (x : R) : x < 0 -> math_sqrt x = Raise ValueError.
Proof.
  intros H; unfold math_sqrt.
  now rewrite (proj2 (Rltb_true _ _) H).
Qed.

Lemma math_sqrt_inv (x v : R) :
  math_sqrt x = Ok v -> 0 <= x /\ v = sqrt x.
Proof.
  unfold math_sqrt; destruct (Rltb x 0) eqn:E; [discriminate|].
  intros H; injection H as <-; split; [now apply Rltb_false | reflexivity].
Qed.

(** ** Sums *)

Lemma fold_left_squares (a : list R) (acc : R) :
  fold_left Rplus (array_mul a a) acc
  = fold_left (fun sum c => sum + c * c) a acc.
Proof.
  revert acc; induction a as [|x a IH]; intros acc; simpl;
    [reflexivity | apply IH].
Qed.

Lemma numpy_sum_squares (a : list R) :
  numpy_sum (array_mul a a) = sum_of_squares a.
Proof. apply fold_left_squares. Qed.

Lemma row1_harmonic (table : list (list R)) :
  has_harmonics table -> row1 table = Ok (harmonic_coefficients table).
Proof.
  unfold has_harmonics; destruct table as [|r0 [|r1 table]]; simpl;
    [lia | lia | reflexivity].
Qed.

Lemma row1_inv (table : list (list R)) (row : list R) :
  row1 table = Ok row -> has_harmonics table.
Proof.
  unfold has_harmonics; destruct table as [|r0 [|r1 table]]; simpl;
    [discriminate | discriminate | lia].
Qed.

Lemma sum_of_squares_from (l : list R) (acc : R) :
  0 <= acc -> 0 <= fold_left (fun sum c => sum + c * c) l acc.
Proof.
  revert acc; induction l as [|x l IH]; intros acc H; simpl;
    [exact H | apply IH; nra].
Qed.

Lemma sum_of_squares_nonnegative (l : list R) : 0 <= sum_of_squares l.
Proof. apply sum_of_squares_from; lra. Qed.

(** ** The radiation integral *)

Section IntegralLoss.
Context {env : Env}.

Lemma wiggler_i2_described (Brho : R) (w : WigglerT) :
  String.eqb (wig_PassMethod w) "DriftPass" = false ->
  Brho <> 0 ->
  has_harmonics (wig_By w) ->
  has_harmonics (wig_Bx w) ->
  in_float_range ((wig_Bmax w / Brho) ^ 2) ->
  Ok (A := R) (match contribution Brho (Wiggler w) with
               | Some c => c
               | None => 0
               end)
  = wiggler_i2 Brho w.
Proof.
  intros Hpass HB Hy Hx Hr; unfold wiggler_i2, contribution; rewrite Hpass.
  rewrite (float_div_Ok _ _ HB); next_step.
  rewrite (row1_harmonic _ Hy); next_step.
  rewrite (row1_harmonic _ Hx); next_step.
  rewrite (float_pow_Ok _ 2 Hr); next_step.
  now rewrite !numpy_sum_squares.
Qed.

Lemma i2_step_described (Brho i2 : R) (el : Element) :
  element_defined Brho el ->
  i2_step Brho i2 el = Ok (add_contribution Brho i2 el).
Proof.
  unfold add_contribution.
  destruct el as [d|w|c|fam len]; simpl; intros H; try reflexivity.
  - destruct H as [Hr Hl]; unfold dipole_i2.
    rewrite (float_pow_Ok _ 2 Hr); next_step.
    now rewrite (float_div_Ok _ _ Hl).
  - destruct (String.eqb (wig_PassMethod w) "DriftPass") eqn:Hpass;
      [reflexivity|]; simpl negb; cbv iota.
    destruct (H eq_refl) as [HB [Hy [Hx Hr]]].
    rewrite <- (wiggler_i2_described Brho w Hpass HB Hy Hx Hr).
    unfold contribution; now rewrite Hpass.
Qed.

Lemma i2_step_inv (Brho i2 v : R) (el : Element) :
  i2_step Brho i2 el = Ok v -> element_defined Brho el.
Proof.
  destruct el as [d|w|c|fam len]; simpl; intros H; try exact I.
  - unfold dipole_i2 in H.
    destruct (float_pow (dip_BendingAngle d) 2) as [a2|e] eqn:Ha;
      [|discriminate].
    simpl in H.
    destruct (float_div a2 (dip_Length d)) as [q|e] eqn:Hq; [|discriminate].
    split; [exact (proj1 (float_pow_inv _ _ _ Ha))
           | exact (proj1 (float_div_inv _ _ _ Hq))].
  - intros Hpass; rewrite Hpass in H; simpl in H; unfold wiggler_i2 in H.
    destruct (float_div (wig_Bmax w) Brho) as [rhoinv|e] eqn:Hq;
      [|discriminate].
    destruct (float_div_inv _ _ _ Hq) as [HB ->].
    next_step in H.
    destruct (row1 (wig_By w)) as [coefh|e] eqn:Hy; [|discriminate].
    next_step in H.
    destruct (row1 (wig_Bx w)) as [coefv|e] eqn:Hx; [|discriminate].
    next_step in H.
    destruct (float_pow (wig_Bmax w / Brho) 2) as [r2|e] eqn:Hr;
      [|discriminate].
    split; [exact HB|].
    split; [exact (row1_inv _ _ Hy)|].
    split; [exact (row1_inv _ _ Hx)|].
    exact (proj1 (float_pow_inv _ _ _ Hr)).
Qed.

Lemma i2_loop_described (Brho : R) (els : list Element) (i2 : R) :
  (forall el, In el els -> element_defined Brho el) ->
  i2_loop Brho i2 els = Ok (fold_left (add_contribution Brho) els i2).
Proof.
  revert i2; induction els as [|el els IH]; intros i2 H; simpl;
    [reflexivity|].
  rewrite (i2_step_described Brho i2 el (H el (or_introl eq_refl))).
  next_step; apply IH; intros el' Hel; apply H; now right.
Qed.

Lemma i2_loop_inv (Brho : R) (els : list Element) (i2 v : R) :
  i2_loop Brho i2 els = Ok v ->
  forall el, In el els -> element_defined Brho el.
Proof.
  revert i2; induction els as [|el els IH]; intros i2 H el' Hel;
    [contradiction|].
  simpl in H.
  destruct (i2_step Brho i2 el) as [i2'|e] eqn:Hstep; [|discriminate].
  destruct Hel as [<-|Hel].
  - exact (i2_step_inv _ _ _ _ Hstep).
  - exact (IH i2' H el' Hel).
Qed.

Lemma arithmetic_defined_elements (ring : Lattice) :
  arithmetic_defined ring ->
  forall el, In el (elements ring) -> element_defined (described_Brho ring) el.
Proof.
  intros [_ [_ [_ [_ [_ [_ [Hd Hw]]]]]]] el Hel.
  destruct el as [d|w|c|fam len]; simpl; try exact I.
  - now apply Hd.
  - intros Hpass; now apply Hw.
Qed.

(** On a lattice on which the arithmetic is defined, [integral] returns the
    loss of one cell. *)
Lemma integral_described (ring : Lattice) :
  arithmetic_defined ring ->
  integral ring
  = Ok (Cgamma / 2 / PI * energy ring ^ 4 * described_I2 ring).
Proof.
  intros H; pose proof (arithmetic_defined_elements ring H) as Hels.
  destruct H as [_ [HE2 [Hm2 [Hpos [Hc [HE4 _]]]]]].
  unfold integral.
  rewrite (float_pow_Ok _ 2 HE2); next_step.
  rewrite (float_pow_Ok _ 2 Hm2); next_step.
  rewrite (math_sqrt_Ok _ Hpos); next_step.
  rewrite (float_div_Ok _ _ Hc); next_step.
  fold (described_Brho ring).
  rewrite (i2_loop_described _ _ 0 Hels); next_step.
  rewrite (float_pow_Ok _ 4 HE4); next_step.
  reflexivity.
Qed.

(** A lattice on which [integral] returns has an energy that is not below
    the rest energy and elements on which the arithmetic is defined, and
    what is returned is the loss of one cell. *)
Lemma integral_inv (ring : Lattice) (v : R) :
  integral ring = Ok v ->
  0 <= energy ring ^ 2 - e_mass ^ 2
  /\ (forall el, In el (elements ring) ->
                 element_defined (described_Brho ring) el)
  /\ v = Cgamma / 2 / PI * energy ring ^ 4 * described_I2 ring.
Proof.
  unfold integral; intros H.
  destruct (float_pow (energy ring) 2) as [E2|e] eqn:HE2; [|discriminate].
  destruct (float_pow_inv _ _ _ HE2) as [_ ->]; next_step in H.
  destruct (float_pow e_mass 2) as [m2|e] eqn:Hm2; [|discriminate].
  destruct (float_pow_inv _ _ _ Hm2) as [_ ->]; next_step in H.
  destruct (math_sqrt _) as [root|e] eqn:Hroot; [|discriminate].
  destruct (math_sqrt_inv _ _ Hroot) as [Hpos ->]; next_step in H.
  destruct (float_div _ clight) as [Brho|e] eqn:HB; [|discriminate].
  destruct (float_div_inv _ _ _ HB) as [_ ->]; next_step in H.
  fold (described_Brho ring) in H.
  destruct (i2_loop (described_Brho ring) 0 (elements ring)) as [i2|e]
    eqn:Hloop; [|discriminate].
  next_step in H.
  pose proof (i2_loop_inv _ _ 0 i2 Hloop) as Hels.
  rewrite (i2_loop_described _ _ 0 Hels) in Hloop; injection Hloop as <-.
  destruct (float_pow (energy ring) 4) as [E4|e] eqn:HE4; [|discriminate].
  destruct (float_pow_inv _ _ _ HE4) as [_ ->]; next_step in H.
  injection H as <-.
  split; [exact Hpos|]; split; [exact Hels | reflexivity].
Qed.

Lemma integral_loss_value (ring : Lattice) :
  arithmetic_defined ring ->
  get_energy_loss ring (Method INTEGRAL) = ret (described_energy_loss ring).
Proof.
  intros H; unfold get_energy_loss.
  now rewrite (integral_described ring H).
Qed.

Lemma integral_loss_inv (ring : Lattice) (u0 : R) :
  outcome (get_energy_loss ring (Method INTEGRAL)) = Ok u0 ->
  exists v, integral ring = Ok v /\ u0 = IZR (periodicity ring) * v.
Proof.
  unfold get_energy_loss.
  destruct (integral ring) as [v|e]; [|discriminate].
  intros H; injection H as <-; now exists v.
Qed.

(** C4, as amended. On a lattice on which the arithmetic is defined, the
    INTEGRAL method returns periodicity * (Cgamma/2/pi * energy^4 * I2),
    where I2 adds, in the order of the lattice, bendingAngle^2/length for
    each dipole and length * (sum of squared harmonics of the two tables)
    * (peakField/Brho)^2 / 2 for each wiggler that is not in DriftPass,
    every other element adding nothing; the call has no effect. A lattice
    with a dipole of zero length, or with an energy below the rest energy,
    gets no loss: the call raises. *)
Theorem integral_energy_loss (ring : Lattice) :
  (arithmetic_defined ring ->
   get_energy_loss ring (Method INTEGRAL) = ret (described_energy_loss ring))
  /\ ((exists d, In (Dipole d) (elements ring) /\ dip_Length d = 0) ->
      forall u0,
        outcome (get_energy_loss ring (Method INTEGRAL)) <> Ok u0)
  /\ (energy ring ^ 2 - e_mass ^ 2 < 0 ->
      forall u0,
        outcome (get_energy_loss ring (Method INTEGRAL)) <> Ok u0).
Proof.
  split; [apply integral_loss_value|]; split.
  - intros [d [Hd Hl]] u0 H.
    destruct (integral_loss_inv ring u0 H) as [v [Hv _]].
    destruct (integral_inv ring v Hv) as [_ [Hels _]].
    exact (proj2 (Hels (Dipole d) Hd) Hl).
  - intros Hneg u0 H.
    destruct (integral_loss_inv ring u0 H) as [v [Hv _]].
    pose proof (proj1 (integral_inv ring v Hv)); lra.
Qed.

End IntegralLoss.

(** ** The method argument *)

Lemma ascii_upper_lower (c : ascii) :
  ascii_upper (ascii_lower c) = ascii_upper c.
Proof. destruct c as [[] [] [] [] [] [] [] []]; reflexivity. Qed.

Lemma ascii_lower_upper (c : ascii) :
  ascii_lower (ascii_upper c) = ascii_lower c.
Proof. destruct c as [[] [] [] [] [] [] [] []]; reflexivity. Qed.

Lemma upper_lower (s : string) : upper (lower s) = upper s.
Proof.
  induction s as [|c s IH]; simpl; [reflexivity|].
  now rewrite ascii_upper_lower, IH.
Qed.

Lemma lower_upper (s : string) : lower (upper s) = lower s.
Proof.
  induction s as [|c s IH]; simpl; [reflexivity|].
  now rewrite ascii_lower_upper, IH.
Qed.

Lemma same_ignoring_case_upper (s t : string) :
  same_ignoring_case s t = true <-> upper s = upper t.
Proof.
  unfold same_ignoring_case; rewrite String.eqb_eq; split; intros H.
  - now rewrite <- (upper_lower s), H, upper_lower.
  - now rewrite <- (lower_upper s), H, lower_upper.
Qed.

Lemma getitem_name (m : ELossMethod) :
  ELossMethod_getitem (ELossMethod_name m) = Ok m.
Proof. now destruct m. Qed.

Lemma getitem_unknown (t : string) :
  (forall m, t <> ELossMethod_name m) ->
  ELossMethod_getitem t = Raise (KeyError t).
Proof.
  intros H; unfold ELossMethod_getitem.
  destruct (String.eqb t "INTEGRAL") eqn:E1.
  - apply String.eqb_eq in E1; now contradiction (H INTEGRAL).
  - destruct (String.eqb t "TRACKING") eqn:E2; [|reflexivity].
    apply String.eqb_eq in E2; now contradiction (H TRACKING).
Qed.

Lemma ascii_lower_is_ascii (c : ascii) :
  ascii_is_ascii (ascii_lower c) = ascii_is_ascii c.
Proof. destruct c as [[] [] [] [] [] [] [] []]; reflexivity. Qed.

Lemma lower_is_ascii (s : string) : is_ascii (lower s) = is_ascii s.
Proof.
  induction s as [|c s IH]; simpl; [reflexivity|].
  now rewrite ascii_lower_is_ascii, IH.
Qed.

(** A string that is a member's name up to the case of its letters is made
    of ASCII characters. *)
Lemma same_ignoring_case_is_ascii (s : string) (m : ELossMethod) :
  same_ignoring_case s (ELossMethod_name m) = true -> is_ascii s = true.
Proof.
  unfold same_ignoring_case; rewrite String.eqb_eq; intros H.
  rewrite <- lower_is_ascii, H; now destruct m.
Qed.

Lemma upper_name (m : ELossMethod) :
  upper (ELossMethod_name m) = ELossMethod_name m.
Proof. now destruct m. Qed.

Section Methods.
Context {env : Env}.

Lemma str_upper_member (s : string) (m : ELossMethod) :
  same_ignoring_case s (ELossMethod_name m) = true ->
  str_upper s = ELossMethod_name m.
Proof.
  intros H.
  rewrite (str_upper_ascii s (same_ignoring_case_is_ascii s m H)).
  apply same_ignoring_case_upper in H; now rewrite H, upper_name.
Qed.

Lemma str_upper_member_ascii (s : string) (m : ELossMethod) :
  is_ascii s = true ->
  str_upper s = ELossMethod_name m ->
  same_ignoring_case s (ELossMethod_name m) = true.
Proof.
  intros Hs H; apply same_ignoring_case_upper.
  now rewrite <- (str_upper_ascii s Hs), H, upper_name.
Qed.

(** C7. A method that is neither a member of the enum nor a string fails
    with the invalid-method error, and so does, with a KeyError, a string
    whose upper-case form names no member; a string whose upper-case form
    names a member is mapped to that member, a FutureWarning is emitted,
    and the call then does what the call with the member does. The strings
    that are a member's name up to the case of their letters are of this
    kind, and they are the only ASCII strings of this kind. *)
Theorem method_argument_handling (ring : Lattice) :
  (get_energy_loss ring MethodOther = raise (AtError Invalid_method)
   /\ invalid_argument (AtError Invalid_method) = true)
  /\ (forall s,
        (forall m, str_upper s <> ELossMethod_name m) ->
        get_energy_loss ring (MethodStr s) = raise (KeyError (str_upper s))
        /\ invalid_argument (KeyError (str_upper s)) = true)
  /\ (forall s m,
        str_upper s = ELossMethod_name m ->
        get_energy_loss ring (MethodStr s)
        = (emit (FutureWarning
                   (String.append "You should use " (ELossMethod_str m)));;
           get_energy_loss ring (Method m)))
  /\ (forall s m,
        same_ignoring_case s (ELossMethod_name m) = true ->
        str_upper s = ELossMethod_name m)
  /\ (forall s m,
        is_ascii s = true ->
        str_upper s = ELossMethod_name m ->
        same_ignoring_case s (ELossMethod_name m) = true).
Proof.
  split; [split; reflexivity|]; split; [|split; [|split]].
  - intros s H; split; [|reflexivity].
    unfold get_energy_loss; rewrite (getitem_unknown _ H); reflexivity.
  - intros s m H.
    unfold get_energy_loss; rewrite H, getitem_name.
    destruct m; unfold bind, lift, emit, ret; simpl.
    + destruct (integral ring); reflexivity.
    + destruct (tracking ring) as [l [a|e]]; reflexivity.
  - exact str_upper_member.
  - exact str_upper_member_ascii.
Qed.

(** ** Radiation state *)

(** C8. With the TRACKING method the energy loss fails with the
    radiation-state error on every ring whose radiation is off and returns
    a loss on every ring whose radiation is on; the momentum compaction
    fails with the radiation-state error on every ring whose radiation is
    on and returns a value on every ring whose radiation is off. *)
Theorem radiation_preconditions (ring : Lattice) (kw : mcf_kwargs) :
  (radiation ring = false ->
   get_energy_loss ring (Method TRACKING)
   = raise (AtError (Wrong_radiation_state true)))
  /\ (radiation ring = true ->
      exists loss, outcome (get_energy_loss ring (Method TRACKING)) = Ok loss)
  /\ (radiation ring = true ->
      get_mcf ring kw = raise (AtError (Wrong_radiation_state false)))
  /\ (radiation ring = false ->
      exists mcf, outcome (get_mcf ring kw) = Ok mcf).
Proof.
  unfold get_energy_loss, get_mcf, tracking, check_radiation.
  repeat split; intros H; rewrite H; simpl; try reflexivity;
    eexists; reflexivity.
Qed.

(** ** Slip factor *)


(** ** Revolution frequency *)

(** C10. When [dct] is given the nominal frequency is scaled by
    lcell/(lcell + dct), whatever [dp] is, and nothing is tracked; when only
    [dp] is given the closed orbit is searched and tracked over one turn, on
    a radiation-off copy if the ring has radiation, and the frequency is
    scaled with the path lengthening found; when neither is given the
    nominal frequency beta*c/lcell/periodicity is returned. The tracking
    engine is called exactly when [dct] is None and [dp] is not. *)
Theorem revolution_frequency_cases (ring : Lattice) :
  let lcell := get_s_pos ring (List.length (elements ring)) in
  let nominal := beta ring * clight / lcell / IZR (periodicity ring) in
  (forall dp dct,
     get_revolution_frequency ring dp (Some dct)
     = ret (nominal * (lcell / (lcell + dct))))
  /\ (forall dp,
        let rnorad := if radiation ring
                      then radiation_off ring radiation_off_defaults
                      else ring in
        let dct := coord (nth 0%nat (lattice_pass rnorad
                                       [find_orbit4 rnorad dp]) []) 5 in
        get_revolution_frequency ring (Some dp) None
        = ((if radiation ring then [Called Radiation_off_copy] else [])
           ++ [Called (Find_orbit4 dp false); Called (Lattice_pass 1 false)],
           Ok (nominal * (lcell / (lcell + dct)))))
  /\ get_revolution_frequency ring None None = ret nominal
  /\ (forall dp dct,
        log (get_revolution_frequency ring dp dct) <> []
        <-> dct = None /\ dp <> None).
Proof.
  intros lcell nominal.
  split; [reflexivity|].
  split.
  { intros dp; unfold get_revolution_frequency.
    destruct (radiation ring); reflexivity. }
  split; [reflexivity|].
  intros dp dct; split.
  - destruct dct as [dct|]; [intros H; now contradiction H|].
    destruct dp as [dp|]; [intros _; split; [reflexivity|discriminate]|].
    intros H; now contradiction H.
  - intros [-> Hdp]; destruct dp as [dp|]; [|now contradiction Hdp].
    unfold get_revolution_frequency.
    destruct (radiation ring); discriminate.
Qed.

End Methods.

(** ** Cavity attributes, minimum and sign *)

Lemma cavity_attr_map (attr : string) (get : RFCavityT -> R)
    (cs : list RFCavityT) :
  cavity_attr attr get (map RFCavity cs) = Ok (map get cs).
Proof.
  induction cs as [|c cs IH]; simpl; [reflexivity | now rewrite IH].
Qed.

Lemma cavity_attr_Ok (attr : string) (get : RFCavityT -> R)
    (els : list Element) (vs : list R) :
  cavity_attr attr get els = Ok vs ->
  exists cs, els = map RFCavity cs /\ vs = map get cs.
Proof.
  revert vs; induction els as [|el els IH]; intros vs H; simpl in H.
  - exists []; split; [reflexivity | now injection H as <-].
  - destruct el as [d|w|c|fam len]; try discriminate.
    destruct (cavity_attr attr get els) as [vs'|e]; [|discriminate].
    destruct (IH vs' eq_refl) as [cs [-> ->]].
    exists (c :: cs); split; [reflexivity | now injection H as <-].
Qed.

(** The test [numpy.sign(v) > 0] is the test [v > 0]. *)
Lemma sign_test (v : R) : Rgtb (numpy_sign v) 0 = Rgtb v 0.
Proof.
  unfold numpy_sign.
  destruct (Rltb v 0) eqn:Hlt.
  - apply Rltb_true in Hlt.
    transitivity false;
      [apply Rgtb_false; lra | symmetry; apply Rgtb_false; lra].
  - destruct (Rgtb v 0) eqn:Hgt.
    + apply Rgtb_true; lra.
    + apply Rgtb_false; lra.
Qed.

(** [argmin_from] returns either the index it was given, when no later
    entry is below the running minimum, or the index of a later entry that
    is below the running minimum and at most every later entry. *)
Lemma argmin_from_spec (a : list R) :
  forall best m i,
    let k := argmin_from best m i a in
    (k = best /\ forall x, In x a -> m <= x)
    \/ (exists j, k = (i + j)%nat /\ (j < List.length a)%nat
                  /\ nth j a 0 < m /\ forall x, In x a -> nth j a 0 <= x).
Proof.
  induction a as [|x a IH]; intros best m i; simpl.
  - left; split; [reflexivity | intros x []].
  - destruct (Rltb x m) eqn:Hx.
    + apply Rltb_true in Hx.
      destruct (IH i x (S i)) as [[Hk Hall] | [j [Hk [Hj [Hlt Hall]]]]].
      * right; exists 0%nat; rewrite Hk.
        repeat split; [lia | lia | exact Hx |].
        intros y [<- | Hy]; [lra | now apply Hall].
      * right; exists (S j); rewrite Hk.
        repeat split; [lia | lia | simpl; lra |].
        intros y [<- | Hy]; simpl; [lra | now apply Hall].
    + apply Rltb_false in Hx.
      destruct (IH best m (S i)) as [[Hk Hall] | [j [Hk [Hj [Hlt Hall]]]]].
      * left; split; [exact Hk |].
        intros y [<- | Hy]; [exact Hx | now apply Hall].
      * right; exists (S j); rewrite Hk.
        repeat split; [lia | lia | exact Hlt |].
        intros y [<- | Hy]; simpl; [lra | now apply Hall].
Qed.

(** [numpy_argmin] returns an index of the array, at which the array is at
    most every one of its entries. *)
Lemma numpy_argmin_lowest (a : list R) (k : nat) :
  numpy_argmin a = Ok k ->
  (k < List.length a)%nat /\ forall x, In x a -> nth k a 0 <= x.
Proof.
  destruct a as [|x a]; simpl; [discriminate|].
  intros H; injection H as <-.
  destruct (argmin_from_spec a 0%nat x 1%nat)
    as [[-> Hall] | [j [-> [Hj [Hlt Hall]]]]].
  - split; [lia|].
    intros y [<- | Hy]; [lra | now apply Hall].
  - split; [simpl; lia|].
    intros y [<- | Hy]; simpl; [lra | now apply Hall].
Qed.

Lemma nth_shifted (phis ref : R) (tl0 : list R) (i : nat) :
  (i < List.length tl0)%nat ->
  nth i (map (fun t => phis + t - ref) tl0) 0 = phis + nth i tl0 0 - ref.
Proof.
  intros Hi.
  rewrite (nth_indep _ 0 (phis + 0 - ref)) by now rewrite length_map.
  apply (map_nth (fun t => phis + t - ref)).
Qed.

(** ** Time-lag from the energy loss *)

Section TimeLag.
Context {env : Env}.

(** On the single-frequency path the call never returns: it raises the
    unstable-ring error when the loss exceeds the voltage, and otherwise
    fails on the name [np], which nothing binds. *)
Lemma timelag_single_outcome (u0 rfv freq : R) (cavpts : refpts) :
  timelag_single u0 rfv freq cavpts
  = if Rgtb u0 rfv then Raise (AtError Not_enough_RF_voltage)
    else Raise (NameError "np").
Proof.
  unfold timelag_single; destruct (Rgtb u0 rfv); reflexivity.
Qed.

Lemma fallback_unstable (ring : Lattice) (u0 : R) (cavpts : refpts)
    (cs : list RFCavityT) :
  select ring (cavity_points ring cavpts) = Ok (map RFCavity cs) ->
  Rgtb u0 (numpy_sum (map cav_Voltage cs)) = true ->
  timelag_fallback ring u0 cavpts = Raise (AtError Not_enough_RF_voltage).
Proof.
  intros Hsel Hgt; unfold timelag_fallback.
  unfold cavity_points in Hsel; rewrite Hsel, !cavity_attr_map, Hgt.
  reflexivity.
Qed.

(** The fallback path once the cavities are read and the voltage
    suffices. *)
Lemma fallback_stable (ring : Lattice) (u0 : R) (cavpts : refpts)
    (cs : list RFCavityT) :
  select ring (cavity_points ring cavpts) = Ok (map RFCavity cs) ->
  Rgtb u0 (numpy_sum (map cav_Voltage cs)) = false ->
  let freq := map cav_Frequency cs in
  let rfv := map cav_Voltage cs in
  let tl0 := map cav_TimeLag cs in
  timelag_fallback ring u0 cavpts
  = match numpy_amin freq with
    | Raise e => Raise e
    | Ok fmin =>
        let ctmax := 1 / fmin * clight / 2 in
        match least_squares (deq_fun rfv freq) (ctmax / 2) (0, ctmax) with
        | None => Raise ValueError
        | Some zero_diff =>
            if Rgtb (deq_fun rfv freq (zero_diff - 1.0e-6)) 0 then
              match least_squares (eq_fun rfv freq u0) (zero_diff / 2)
                                  (0, zero_diff) with
              | None => Raise ValueError
              | Some phis =>
                  match numpy_argmin freq with
                  | Raise e => Raise e
                  | Ok k => Ok (map (fun t => phis + t - nth k tl0 0) tl0)
                  end
              end
            else Raise (NameError "zero_cross")
        end
    end.
Proof.
  intros Hsel Hgt freq rfv tl0; unfold timelag_fallback.
  unfold cavity_points in Hsel; rewrite Hsel, !cavity_attr_map, Hgt.
  fold freq rfv tl0.
  destruct (numpy_amin freq) as [fmin|e]; [|reflexivity].
  cbv zeta; unfold solve.
  destruct (least_squares (deq_fun rfv freq) _ _) as [zero_diff|];
    [|reflexivity].
  rewrite sign_test.
  destruct (Rgtb (deq_fun rfv freq (zero_diff - 1.0e-6)) 0); [|reflexivity].
  destruct (least_squares (eq_fun rfv freq u0) _ _) as [phis|];
    [|reflexivity].
  destruct (numpy_argmin freq); reflexivity.
Qed.

Lemma fallback_stable_not_unstable (ring : Lattice) (u0 : R)
    (cavpts : refpts) (cs : list RFCavityT) :
  select ring (cavity_points ring cavpts) = Ok (map RFCavity cs) ->
  Rgtb u0 (numpy_sum (map cav_Voltage cs)) = false ->
  timelag_fallback ring u0 cavpts <> Raise (AtError Not_enough_RF_voltage).
Proof.
  intros Hsel Hgt; rewrite (fallback_stable ring u0 cavpts cs Hsel Hgt).
  cbv zeta.
  destruct (map cav_Frequency cs) as [|f fs]; simpl; [discriminate|].
  destruct (least_squares _ _ _) as [zero_diff|]; [|discriminate].
  destruct (Rgtb _ 0); [|discriminate].
  destruct (least_squares _ _ _) as [phis|]; discriminate.
Qed.

Lemma cavity_set_cavities (ring : Lattice) (cavpts : refpts)
    (attr : string) (get : RFCavityT -> R) (vs : list R) :
  cavity_set_attr ring cavpts attr get = Ok vs ->
  exists cs, select ring (cavity_points ring cavpts) = Ok (map RFCavity cs)
             /\ vs = map get cs.
Proof.
  unfold cavity_set_attr.
  destruct (select ring (cavity_points ring cavpts)) as [cavs|e];
    [|discriminate].
  intros H; destruct (cavity_attr_Ok _ _ _ _ H) as [cs [-> ->]].
  now exists cs.
Qed.

Lemma map_RFCavity_inj (cs cs' : list RFCavityT) :
  map RFCavity cs = map RFCavity cs' -> cs = cs'.
Proof.
  revert cs'; induction cs as [|c cs IH]; intros [|c' cs'] H;
    try discriminate; [reflexivity|].
  simpl in H; injection H as -> H; f_equal; now apply IH.
Qed.

(** The outcome of the whole call, in terms of its two paths. *)
Lemma get_timelag_outcome (ring : Lattice) (method : method_arg)
    (cavpts : refpts) (l : list event) (u0 : R) :
  get_energy_loss ring method = (l, Ok u0) ->
  get_timelag_fromU0 ring method cavpts
  = (l, match get_rf_voltage ring cavpts, get_rf_frequency ring cavpts with
        | Some rfv, Some freq => timelag_single u0 rfv freq cavpts
        | _, _ => timelag_fallback ring u0 cavpts
        end).
Proof.
  intros H; unfold get_timelag_fromU0; rewrite H; unfold bind, lift.
  destruct (get_rf_voltage ring cavpts);
    [destruct (get_rf_frequency ring cavpts)|]; now rewrite app_nil_r.
Qed.

Lemma get_timelag_raises (ring : Lattice) (method : method_arg)
    (cavpts : refpts) (l : list event) (e : exn) :
  get_energy_loss ring method = (l, Raise e) ->
  get_timelag_fromU0 ring method cavpts = (l, Raise e).
Proof.
  intros H; unfold get_timelag_fromU0; rewrite H; reflexivity.
Qed.

(** C3. Once the energy loss is computed, the call raises the
    unstable-ring error exactly when the loss exceeds the available
    voltage: the combined voltage on the single-frequency path, the sum of
    the cavities' voltages on the fallback path. *)
Theorem unstable_ring_error (ring : Lattice) (method : method_arg)
    (cavpts : refpts) (l : list event) (u0 V : R) :
  get_energy_loss ring method = (l, Ok u0) ->
  available_voltage ring cavpts = Some V ->
  (u0 > V ->
   get_timelag_fromU0 ring method cavpts
   = (l, Raise (AtError Not_enough_RF_voltage)))
  /\ (u0 <= V ->
      outcome (get_timelag_fromU0 ring method cavpts)
      <> Raise (AtError Not_enough_RF_voltage)).
Proof.
  intros Hloss HV.
  rewrite (get_timelag_outcome ring method cavpts l u0 Hloss).
  unfold outcome, available_voltage in *; simpl.
  assert (Hfb : match cavity_set_attr ring cavpts "Voltage" cav_Voltage with
                | Ok rfv => Some (numpy_sum rfv)
                | Raise _ => None
                end = Some V ->
                (u0 > V -> timelag_fallback ring u0 cavpts
                           = Raise (AtError Not_enough_RF_voltage))
                /\ (u0 <= V -> timelag_fallback ring u0 cavpts
                               <> Raise (AtError Not_enough_RF_voltage))).
  { destruct (cavity_set_attr ring cavpts "Voltage" cav_Voltage)
      as [rfv|e] eqn:Hattr; [|discriminate].
    intros HVs; injection HVs as <-.
    destruct (cavity_set_cavities _ _ _ _ _ Hattr) as [cs [Hsel ->]].
    split; intros Hu.
    - apply (fallback_unstable ring u0 cavpts cs Hsel).
      now apply Rgtb_true.
    - apply (fallback_stable_not_unstable ring u0 cavpts cs Hsel).
      now apply Rgtb_false. }
  destruct (get_rf_voltage ring cavpts) as [rfv|].
  - destruct (get_rf_frequency ring cavpts) as [freq|].
    + injection HV as ->; rewrite timelag_single_outcome.
      split; intros Hu.
      * apply Rgtb_true in Hu; now rewrite Hu.
      * apply Rgtb_false in Hu; rewrite Hu; discriminate.
    + destruct (Hfb HV) as [H1 H2]; split; intros Hu.
      * now rewrite H1.
      * now apply H2.
  - destruct (Hfb HV) as [H1 H2]; split; intros Hu.
    + now rewrite H1.
    + now apply H2.
Qed.

(** C5, as amended. On the fallback path a returned assignment gives each
    cavity the solved phase offset plus the cavity's previous time-lag,
    minus the previous time-lag of the lowest-frequency cavity, the
    addition made before the subtraction; this holds of the
    lowest-frequency cavity as of the others, so that its own previous
    time-lag is added and taken off again. *)
Theorem timelag_relative_to_reference (ring : Lattice) (method : method_arg)
    (cavpts : refpts) (timelag freq tl0 : list R) (k : nat) :
  single_frequency ring cavpts = false ->
  outcome (get_timelag_fromU0 ring method cavpts) = Ok timelag ->
  cavity_set_attr ring cavpts "Frequency" cav_Frequency = Ok freq ->
  cavity_set_attr ring cavpts "TimeLag" cav_TimeLag = Ok tl0 ->
  numpy_argmin freq = Ok k ->
  (forall f, In f freq -> nth k freq 0 <= f)
  /\ exists u0 rfv zero_diff phis,
       outcome (get_energy_loss ring method) = Ok u0
       /\ cavity_set_attr ring cavpts "Voltage" cav_Voltage = Ok rfv
       /\ least_squares (eq_fun rfv freq u0) (zero_diff / 2) (0, zero_diff)
          = Some phis
       /\ List.length timelag = List.length tl0
       /\ forall i, (i < List.length tl0)%nat ->
                    nth i timelag 0 = phis + nth i tl0 0 - nth k tl0 0.
Proof.
  intros Hsingle Hout Hfreq Htl Hk.
  destruct (numpy_argmin_lowest freq k Hk) as [Hklen Hlow].
  split; [exact Hlow|].
  destruct (get_energy_loss ring method) as [l [u0|e]] eqn:Hloss.
  2:{ rewrite (get_timelag_raises ring method cavpts l e Hloss) in Hout.
      discriminate. }
  rewrite (get_timelag_outcome ring method cavpts l u0 Hloss) in Hout.
  unfold outcome in Hout; simpl in Hout.
  assert (Hfb : timelag_fallback ring u0 cavpts = Ok timelag).
  { unfold single_frequency in Hsingle.
    destruct (get_rf_voltage ring cavpts);
      [destruct (get_rf_frequency ring cavpts); [discriminate|]|];
      exact Hout. }
  clear Hout Hsingle.
  destruct (cavity_set_cavities _ _ _ _ _ Hfreq) as [cs [Hsel ->]].
  destruct (cavity_set_cavities _ _ _ _ _ Htl) as [cs' [Hsel' ->]].
  assert (cs' = cs) as ->.
  { apply map_RFCavity_inj; congruence. }
  destruct (Rgtb u0 (numpy_sum (map cav_Voltage cs))) eqn:Hgt.
  { rewrite (fallback_unstable ring u0 cavpts cs Hsel Hgt) in Hfb.
    discriminate. }
  rewrite (fallback_stable ring u0 cavpts cs Hsel Hgt) in Hfb.
  cbv zeta in Hfb.
  destruct (numpy_amin (map cav_Frequency cs)) as [fmin|e]; [|discriminate].
  destruct (least_squares (deq_fun _ _) _ _) as [zero_diff|];
    [|discriminate].
  destruct (Rgtb _ 0); [|discriminate].
  destruct (least_squares (eq_fun _ _ _) _ _) as [phis|] eqn:Hphis;
    [|discriminate].
  rewrite Hk in Hfb; injection Hfb as <-.
  assert (Hlen : (k < List.length (map cav_TimeLag cs))%nat)
    by now rewrite length_map in *.
  exists u0, (map cav_Voltage cs), zero_diff, phis.
  split; [reflexivity|].
  split; [unfold cavity_set_attr; now rewrite Hsel, cavity_attr_map|].
  split; [exact Hphis|].
  split; [now rewrite length_map|].
  intros i Hi; now rewrite nth_shifted.
Qed.

End TimeLag.

(** ** The example rings *)

Lemma f_main_pos : 0 < Example.f_main.
Proof.
  unfold Example.f_main; apply Rdiv_lt_0_compat; [lra|].
  pose proof PI_RGT_0; lra.
Qed.

Lemma phase_main (x : R) : 2 * PI * Example.f_main * x / 299792458 = x.
Proof. unfold Example.f_main; field; apply PI_neq0. Qed.

Lemma phase_harmonic (x : R) :
  2 * PI * (3 * Example.f_main) * x / 299792458 = 3 * x.
Proof. unfold Example.f_main; field; apply PI_neq0. Qed.

Lemma ctmax_main : 1 / Example.f_main * 299792458 / 2 = PI.
Proof. unfold Example.f_main; field; apply PI_neq0. Qed.

Lemma example_deq (v1 v3 x : R) :
  deq_fun (env := Example.env) [v1; v3]
          [Example.f_main; 3 * Example.f_main] x
  = v1 * cos x + v3 * cos (3 * x).
Proof.
  unfold deq_fun, numpy_sum; simpl.
  change (@clight Example.env) with 299792458.
  rewrite phase_main, phase_harmonic; ring.
Qed.

Lemma example_eq (v1 v3 u0 x : R) :
  eq_fun (env := Example.env) [v1; v3]
         [Example.f_main; 3 * Example.f_main] u0 x
  = v1 * sin x + v3 * sin (3 * x) - u0.
Proof.
  unfold eq_fun, numpy_sum; simpl.
  change (@clight Example.env) with 299792458.
  rewrite phase_main, phase_harmonic; ring.
Qed.

Lemma solver_seed_root (f : R -> R) (x0 lb ub : R) :
  lb < ub -> lb <= x0 <= ub -> f x0 = 0 ->
  Example.exact_root_solver f x0 (lb, ub) = Some x0.
Proof.
  intros Hb [Hl Hu] Hf; unfold Example.exact_root_solver.
  rewrite (proj2 (Rltb_true lb ub)), (proj2 (Rltb_false x0 lb)),
    (proj2 (Rltb_false ub x0)) by assumption.
  simpl; destruct (Req_dec_T (f x0) 0); [reflexivity | contradiction].
Qed.

Lemma solver_lower_root (f : R -> R) (x0 lb ub : R) :
  lb < ub -> lb <= x0 <= ub -> f x0 <> 0 -> f lb = 0 ->
  Example.exact_root_solver f x0 (lb, ub) = Some lb.
Proof.
  intros Hb [Hl Hu] Hf Hlb; unfold Example.exact_root_solver.
  rewrite (proj2 (Rltb_true lb ub)), (proj2 (Rltb_false x0 lb)),
    (proj2 (Rltb_false ub x0)) by assumption.
  simpl; destruct (Req_dec_T (f x0) 0); [contradiction|].
  destruct (Req_dec_T (f lb) 0); [reflexivity | contradiction].
Qed.

(** Whatever the solver answers is a root of the objective inside the
    bounds. *)
Lemma solver_sound (f : R -> R) (x0 lb ub x : R) :
  Example.exact_root_solver f x0 (lb, ub) = Some x ->
  f x = 0 /\ lb <= x <= ub.
Proof.
  unfold Example.exact_root_solver.
  destruct (Rltb lb ub) eqn:H1; [|discriminate].
  destruct (Rltb x0 lb) eqn:H2; [discriminate|].
  destruct (Rltb ub x0) eqn:H3; [discriminate|]; simpl.
  apply Rltb_true in H1; apply Rltb_false in H2; apply Rltb_false in H3.
  destruct (Req_dec_T (f x0) 0) as [Hx|Hx].
  - intros H; injection H as <-; split; [assumption | lra].
  - destruct (Req_dec_T (f lb) 0) as [Hl|Hl]; [|discriminate].
    intros H; injection H as <-; split; [assumption | lra].
Qed.

(** ** The radiation integral of the example rings *)

Lemma example_rest_energy :
  1 <= (6e9) ^ 2 - (510998.95) ^ 2.
Proof. lra. Qed.

Lemma example_Brho (els : list Element) :
  described_Brho (env := Example.env) (Example.ring_of els)
  = sqrt ((6e9) ^ 2 - (510998.95) ^ 2) / 299792458.
Proof. reflexivity. Qed.

Lemma example_Brho_lower (els : list Element) :
  / 299792458 <= described_Brho (env := Example.env) (Example.ring_of els).
Proof.
  rewrite example_Brho.
  pose proof (sqrt_le_1 1 _ Rle_0_1 (Rle_trans _ _ _ Rle_0_1
                                       example_rest_energy)
                        example_rest_energy) as H.
  rewrite sqrt_1 in H; unfold Rdiv.
  set (r := sqrt _) in *.
  assert (0 < / 299792458) by (apply Rinv_0_lt_compat; lra).
  nra.
Qed.

(** The arithmetic is defined on an example ring whose elements are. *)
Lemma example_arithmetic_defined (els : list Element) :
  (forall el, In el els ->
     element_defined
       (described_Brho (env := Example.env) (Example.ring_of els)) el) ->
  arithmetic_defined (env := Example.env) (Example.ring_of els).
Proof.
  intros Hels; unfold arithmetic_defined; simpl.
  change (@e_mass Example.env) with 510998.95.
  change (@clight Example.env) with 299792458.
  split; [apply small_in_float_range; rewrite Rabs_pos_eq; lra|].
  split; [apply small_in_float_range; rewrite Rabs_pos_eq; lra|].
  split; [apply small_in_float_range; rewrite Rabs_pos_eq; lra|].
  split; [lra|].
  split; [lra|].
  split; [apply small_in_float_range; rewrite Rabs_pos_eq; lra|].
  split.
  - intros d Hd; exact (Hels (Dipole d) Hd).
  - intros w Hw Hpass; exact (Hels (Wiggler w) Hw Hpass).
Qed.

Lemma no_contribution (Brho : R) (els : list Element) (acc : R) :
  (forall el, In el els ->
     match el with Dipole _ | Wiggler _ => False | _ => True end) ->
  fold_left (add_contribution Brho) els acc = acc.
Proof.
  revert acc; induction els as [|el els IH]; intros acc Hels; simpl;
    [reflexivity|].
  rewrite IH by (intros el' H'; apply Hels; now right).
  pose proof (Hels el (or_introl eq_refl)) as Hel.
  destruct el as [d|w|c|fam len]; try contradiction; reflexivity.
Qed.

(** An example ring without dipole or wiggler loses nothing. *)
Lemma lossless_ring (els : list Element) :
  (forall el, In el els ->
     match el with Dipole _ | Wiggler _ => False | _ => True end) ->
  get_energy_loss (env := Example.env) (Example.ring_of els)
                  (Method INTEGRAL)
  = ret 0.
Proof.
  intros Hels.
  rewrite integral_loss_value.
  - f_equal; unfold described_energy_loss, described_I2.
    rewrite (no_contribution _ _ 0 Hels); ring.
  - apply example_arithmetic_defined; intros el Hel.
    pose proof (Hels el Hel) as H.
    destruct el as [d|w|c|fam len]; try contradiction; exact I.
Qed.

Section TwoCavities.
Variables v1 t1 v3 t3 : R.

Lemma two_cavity_points (cavpts : refpts) :
  cavpts = None \/ cavpts = Some [1%nat; 2%nat] ->
  cavity_points (Example.two_cavity_ring v1 t1 v3 t3) cavpts
  = [1%nat; 2%nat].
Proof. intros [-> | ->]; reflexivity. Qed.

Lemma two_cavity_select (cavpts : refpts) :
  cavpts = None \/ cavpts = Some [1%nat; 2%nat] ->
  select (Example.two_cavity_ring v1 t1 v3 t3)
         (cavity_points (Example.two_cavity_ring v1 t1 v3 t3) cavpts)
  = Ok (map RFCavity [Example.main_rf v1 t1; Example.harmonic_rf v3 t3]).
Proof. intros H; rewrite (two_cavity_points cavpts H); reflexivity. Qed.

Lemma two_cavity_no_combined_frequency (cavpts : refpts) :
  cavpts = None \/ cavpts = Some [1%nat; 2%nat] ->
  Example.combined_frequency (Example.two_cavity_ring v1 t1 v3 t3) cavpts
  = None.
Proof.
  intros H; unfold Example.combined_frequency, cavity_set_attr.
  rewrite (two_cavity_select cavpts H); simpl.
  destruct (Req_dec_T Example.f_main (3 * Example.f_main)) as [E|E];
    [|reflexivity].
  pose proof f_main_pos; lra.
Qed.

Lemma two_cavity_not_single (cavpts : refpts) :
  cavpts = None \/ cavpts = Some [1%nat; 2%nat] ->
  single_frequency (env := Example.env)
                   (Example.two_cavity_ring v1 t1 v3 t3) cavpts
  = false.
Proof.
  intros H; unfold single_frequency.
  change (@get_rf_voltage Example.env) with Example.combined_voltage.
  unfold Example.combined_voltage.
  now rewrite (two_cavity_no_combined_frequency cavpts H).
Qed.

Lemma two_cavity_loss :
  get_energy_loss (env := Example.env)
                  (Example.two_cavity_ring v1 t1 v3 t3) (Method INTEGRAL)
  = ret 0.
Proof.
  apply lossless_ring; simpl; intros el [<-|[<-|[<-|[]]]]; exact I.
Qed.

Lemma two_cavity_amin :
  numpy_amin [Example.f_main; 3 * Example.f_main] = Ok Example.f_main.
Proof.
  simpl; rewrite (proj2 (Rltb_false _ _)); [reflexivity|].
  pose proof f_main_pos; lra.
Qed.

Lemma two_cavity_argmin :
  numpy_argmin [Example.f_main; 3 * Example.f_main] = Ok 0%nat.
Proof.
  simpl; rewrite (proj2 (Rltb_false _ _)); [reflexivity|].
  pose proof f_main_pos; lra.
Qed.

(** The fallback path of the two-cavity ring when the energy loss is zero
    and the voltages add up to at least zero. *)
Lemma two_cavity_fallback (cavpts : refpts) :
  cavpts = None \/ cavpts = Some [1%nat; 2%nat] ->
  0 <= v1 + v3 ->
  timelag_fallback (env := Example.env)
                   (Example.two_cavity_ring v1 t1 v3 t3) 0 cavpts
  = match Example.exact_root_solver
            (deq_fun (env := Example.env) [v1; v3]
                     [Example.f_main; 3 * Example.f_main])
            (PI / 2) (0, PI) with
    | None => Raise ValueError
    | Some zero_diff =>
        if Rgtb (v1 * cos (zero_diff - 1.0e-6)
                 + v3 * cos (3 * (zero_diff - 1.0e-6))) 0 then
          match Example.exact_root_solver
                  (eq_fun (env := Example.env) [v1; v3]
                          [Example.f_main; 3 * Example.f_main] 0)
                  (zero_diff / 2) (0, zero_diff) with
          | None => Raise ValueError
          | Some phis => Ok [phis + t1 - t1; phis + t3 - t1]
          end
        else Raise (NameError "zero_cross")
    end.
Proof.
  intros Hpts Hv.
  rewrite (fallback_stable _ 0 cavpts
             [Example.main_rf v1 t1; Example.harmonic_rf v3 t3]
             (two_cavity_select cavpts Hpts)).
  2:{ apply Rgtb_false; unfold numpy_sum; simpl; lra. }
  cbv zeta.
  change (map cav_Frequency [Example.main_rf v1 t1; Example.harmonic_rf v3 t3])
    with [Example.f_main; 3 * Example.f_main].
  change (map cav_Voltage [Example.main_rf v1 t1; Example.harmonic_rf v3 t3])
    with [v1; v3].
  change (map cav_TimeLag [Example.main_rf v1 t1; Example.harmonic_rf v3 t3])
    with [t1; t3].
  rewrite two_cavity_amin, two_cavity_argmin.
  change (@clight Example.env) with 299792458.
  change (@least_squares Example.env) with Example.exact_root_solver.
  rewrite ctmax_main.
  destruct (Example.exact_root_solver _ (PI / 2) (0, PI)) as [zero_diff|];
    [|reflexivity].
  rewrite example_deq.
  reflexivity.
Qed.

End TwoCavities.

Lemma sin_triple_bound (d : R) : 0 <= sin d -> sin (3 * d) <= 3 * sin d.
Proof.
  intros Hs; replace (3 * d) with (2 * d + d) by ring.
  rewrite sin_plus, sin_2a.
  pose proof (COS_bound d) as [Hc1 Hc2].
  pose proof (COS_bound (2 * d)) as [Hd1 Hd2].
  assert (cos d * cos d <= 1) by nra.
  nra.
Qed.

(** cos(3 (pi/2 - d)) = - sin(3 d) *)
Lemma cos_three_halves (d : R) : cos (3 * (PI / 2 - d)) = - sin (3 * d).
Proof.
  replace (3 * (PI / 2 - d)) with (3 * (PI / 2) - 3 * d) by ring.
  rewrite cos_minus, cos_3PI2, sin_3PI2; ring.
Qed.

Lemma PI_bounds : 3 < PI <= 4.
Proof. pose proof PI2_3_2; pose proof PI_4; lra. Qed.

(** Both example objectives that locate the stationary point vanish at the
    seed, the middle of the domain. *)
Lemma stationary_at_seed (v1 v3 : R) :
  Example.exact_root_solver
    (deq_fun (env := Example.env) [v1; v3]
             [Example.f_main; 3 * Example.f_main])
    (PI / 2) (0, PI)
  = Some (PI / 2).
Proof.
  pose proof PI_bounds.
  apply solver_seed_root; [lra | lra |].
  rewrite example_deq, cos_PI2, cos_3PI2; ring.
Qed.

(** With the harmonic cavity at a quarter of the main voltage the slope is
    positive just before the stationary point. *)
Lemma harmonic_slope_positive :
  4e6 * cos (PI / 2 - 1.0e-6) + 1e6 * cos (3 * (PI / 2 - 1.0e-6)) > 0.
Proof.
  rewrite cos_shift, cos_three_halves.
  pose proof PI_bounds.
  assert (0 < sin 1.0e-6) by (apply sin_gt_0; lra).
  assert (sin (3 * 1.0e-6) <= 3 * sin 1.0e-6)
    by (apply sin_triple_bound; lra).
  lra.
Qed.

(** With the harmonic cavity at the main voltage it is not. *)
Lemma strong_harmonic_slope_not_positive :
  1e6 * cos (PI / 2 - 1.0e-6) + 1e6 * cos (3 * (PI / 2 - 1.0e-6)) <= 0.
Proof.
  rewrite cos_shift, cos_three_halves.
  pose proof PI_bounds.
  assert (sin 1.0e-6 < sin (3 * 1.0e-6))
    by (apply sin_increasing_1; lra).
  lra.
Qed.

Lemma harmonic_phase_root :
  Example.exact_root_solver
    (eq_fun (env := Example.env) [4e6; 1e6]
            [Example.f_main; 3 * Example.f_main] 0)
    (PI / 2 / 2) (0, PI / 2)
  = Some 0.
Proof.
  pose proof PI_bounds.
  apply solver_lower_root; [lra | lra | |].
  - rewrite example_eq.
    assert (0 < sin (PI / 2 / 2)) by (apply sin_gt_0; lra).
    assert (0 < sin (3 * (PI / 2 / 2))) by (apply sin_gt_0; lra).
    lra.
  - rewrite example_eq.
    replace (3 * 0) with 0 by ring.
    rewrite sin_0; ring.
Qed.

Lemma harmonic_fallback (cavpts : refpts) :
  cavpts = None \/ cavpts = Some [1%nat; 2%nat] ->
  timelag_fallback (env := Example.env) Example.ring_harmonic 0 cavpts
  = Ok [0 + 0.1 - 0.1; 0 + 0.3 - 0.1].
Proof.
  intros Hpts; unfold Example.ring_harmonic.
  rewrite (two_cavity_fallback 4e6 0.1 1e6 0.3 cavpts Hpts) by lra.
  rewrite stationary_at_seed.
  rewrite (proj2 (Rgtb_true _ 0) harmonic_slope_positive).
  now rewrite harmonic_phase_root.
Qed.

Lemma harmonic_timelag (cavpts : refpts) :
  cavpts = None \/ cavpts = Some [1%nat; 2%nat] ->
  get_timelag_fromU0 (env := Example.env) Example.ring_harmonic
                     (Method INTEGRAL) cavpts
  = ret [0 + 0.1 - 0.1; 0 + 0.3 - 0.1].
Proof.
  intros Hpts.
  rewrite (get_timelag_outcome (env := Example.env) Example.ring_harmonic
             (Method INTEGRAL) cavpts [] 0)
    by (apply (two_cavity_loss 4e6 0.1 1e6 0.3)).
  change (@get_rf_voltage Example.env) with Example.combined_voltage.
  unfold Example.combined_voltage, Example.ring_harmonic.
  rewrite (two_cavity_no_combined_frequency 4e6 0.1 1e6 0.3 cavpts Hpts).
  fold Example.ring_harmonic.
  now rewrite (harmonic_fallback cavpts Hpts).
Qed.

Lemma single_loss :
  get_energy_loss (env := Example.env) Example.ring_single (Method INTEGRAL)
  = ret 0.
Proof. apply lossless_ring; simpl; intros el [<-|[<-|[]]]; exact I. Qed.

Lemma single_combined_frequency :
  Example.combined_frequency Example.ring_single None = Some Example.f_main.
Proof. reflexivity. Qed.

Lemma single_combined_voltage :
  Example.combined_voltage Example.ring_single None = Some (numpy_sum [1e6]).
Proof. reflexivity. Qed.

Lemma unstable_combined_voltage :
  Example.combined_voltage Example.ring_unstable None = Some (numpy_sum [1e5]).
Proof. reflexivity. Qed.

Lemma inv_PI_lower : / 4 <= / PI.
Proof. apply Rinv_le_contravar; [apply PI_RGT_0 | apply PI_4]. Qed.

(** The bending magnet of [ring_unstable] radiates more than its cavity
    restores. *)
Lemma unstable_loss_exceeds_voltage :
  described_energy_loss (env := Example.env) Example.ring_unstable
  > numpy_sum [1e5].
Proof.
  unfold described_energy_loss, described_I2, add_contribution, numpy_sum.
  simpl.
  change (@Cgamma Example.env) with 8.846e-32.
  pose proof inv_PI_lower; unfold Rdiv.
  set (x := / PI) in *; lra.
Qed.

Lemma unstable_arithmetic :
  arithmetic_defined (env := Example.env) Example.ring_unstable.
Proof.
  apply example_arithmetic_defined; simpl; intros el [<-|[<-|[]]]; simpl;
    [|exact I].
  split; [apply small_in_float_range; rewrite Rabs_pos_eq; lra | lra].
Qed.

Lemma unstable_loss :
  get_energy_loss (env := Example.env) Example.ring_unstable (Method INTEGRAL)
  = ([], Ok (described_energy_loss (env := Example.env)
                                   Example.ring_unstable)).
Proof. exact (integral_loss_value _ unstable_arithmetic). Qed.

(** ** The single-frequency path *)

(** Whatever the ring, a call that takes the single-frequency path returns
    no time-lag. *)
Lemma single_path_never_returns {env : Env} (ring : Lattice)
    (method : method_arg) (cavpts : refpts) (timelag : list R) :
  single_frequency ring cavpts = true ->
  outcome (get_timelag_fromU0 ring method cavpts) <> Ok timelag.
Proof.
  intros Hs.
  destruct (get_energy_loss ring method) as [l [u0|e]] eqn:Hloss.
  - rewrite (get_timelag_outcome ring method cavpts l u0 Hloss).
    unfold single_frequency in Hs; unfold outcome; simpl.
    destruct (get_rf_voltage ring cavpts) as [rfv|]; [|discriminate].
    destruct (get_rf_frequency ring cavpts) as [freq|]; [|discriminate].
    rewrite timelag_single_outcome; destruct (Rgtb u0 rfv); discriminate.
  - rewrite (get_timelag_raises ring method cavpts l e Hloss); discriminate.
Qed.

(** C2. On the ring with one cavity, whose loss is zero and whose voltage
    is 1 MV, the call takes the single-frequency path and, instead of the
    closed-form time-lag broadcast to the cavity, ends in a NameError: the
    broadcast is written with [np], a name that the module never binds. *)
Theorem single_frequency_ring_NameError :
  get_timelag_fromU0 (env := Example.env) Example.ring_single
                     (Method INTEGRAL) None
  = ([], Raise (NameError "np")).
Proof.
  rewrite (get_timelag_outcome (env := Example.env) Example.ring_single
             (Method INTEGRAL) None [] 0 single_loss).
  change (@get_rf_voltage Example.env) with Example.combined_voltage.
  change (@get_rf_frequency Example.env) with Example.combined_frequency.
  rewrite single_combined_voltage, single_combined_frequency.
  rewrite timelag_single_outcome.
  rewrite (proj2 (Rgtb_false 0 (numpy_sum [1e6]))); [reflexivity|].
  unfold numpy_sum; simpl; lra.
Qed.

(** ** The fallback path *)

(** Whatever the ring, when the slope just before the stationary point is
    not positive the fallback path ends in a NameError. *)
Lemma fallback_else_branch {env : Env} (ring : Lattice) (u0 : R)
    (cavpts : refpts) (cs : list RFCavityT) (fmin zero_diff : R) :
  let freq := map cav_Frequency cs in
  let rfv := map cav_Voltage cs in
  let ctmax := 1 / fmin * clight / 2 in
  select ring (cavity_points ring cavpts) = Ok (map RFCavity cs) ->
  u0 <= numpy_sum rfv ->
  numpy_amin freq = Ok fmin ->
  least_squares (deq_fun rfv freq) (ctmax / 2) (0, ctmax) = Some zero_diff ->
  deq_fun rfv freq (zero_diff - 1.0e-6) <= 0 ->
  timelag_fallback ring u0 cavpts = Raise (NameError "zero_cross").
Proof.
  intros freq rfv ctmax Hsel Hu Hmin Hzero Hslope.
  rewrite (fallback_stable ring u0 cavpts cs Hsel)
    by now apply Rgtb_false.
  fold freq rfv; rewrite Hmin; cbv zeta; fold ctmax; rewrite Hzero.
  now rewrite (proj2 (Rgtb_false _ 0) Hslope).
Qed.

(** C1. On the ring whose third-harmonic cavity has the voltage of the
    main cavity, the stationary point is found at the middle of the domain
    and the slope just before it is not positive: the search on
    [stationaryPoint, domainMax] is never made, the call ends in a
    NameError on [zero_cross], the name given as its lower bound. *)
Theorem strong_harmonic_ring_NameError :
  get_timelag_fromU0 (env := Example.env) Example.ring_strong_harmonic
                     (Method INTEGRAL) None
  = ([], Raise (NameError "zero_cross")).
Proof.
  rewrite (get_timelag_outcome (env := Example.env)
             Example.ring_strong_harmonic (Method INTEGRAL) None [] 0)
    by (apply (two_cavity_loss 1e6 0 1e6 0)).
  change (@get_rf_voltage Example.env) with Example.combined_voltage.
  unfold Example.combined_voltage, Example.ring_strong_harmonic.
  rewrite (two_cavity_no_combined_frequency 1e6 0 1e6 0 None)
    by now left.
  rewrite (two_cavity_fallback 1e6 0 1e6 0 None (or_introl eq_refl)) by lra.
  rewrite stationary_at_seed.
  now rewrite (proj2 (Rgtb_false _ 0) strong_harmonic_slope_not_positive).
Qed.

(** C5, as stated, fails on the ring with the weaker harmonic cavity: the
    main cavity, which has the lowest frequency, had the time-lag 0.1 and
    is assigned the solved offset, 0. *)
Lemma reference_timelag_replaced :
  ~ reference_keeps_its_timelag (env := Example.env) Example.ring_harmonic
                                (Method INTEGRAL) None.
Proof.
  intros H.
  pose proof (two_cavity_not_single 4e6 0.1 1e6 0.3 None (or_introl eq_refl))
    as Hfallback.
  specialize (H [0 + 0.1 - 0.1; 0 + 0.3 - 0.1]
                [Example.f_main; 3 * Example.f_main] [0.1; 0.3] 0%nat
                Hfallback).
  rewrite (harmonic_timelag None (or_introl eq_refl)) in H.
  specialize (H eq_refl eq_refl eq_refl two_cavity_argmin).
  simpl in H; lra.
Qed.

(** ** Setting the cavity phase *)

(** Whatever the arguments, a call that completes returns None. *)
Lemma set_cavity_phase_returns_None {env : Env} (ring : Lattice)
    (method : method_arg) (refpts_kw cavpts : refpts) (copy : bool)
    (pc : phase_call) :
  outcome (set_cavity_phase ring method refpts_kw cavpts copy) = Ok pc ->
  returned pc = None.
Proof.
  unfold set_cavity_phase, outcome, bind.
  destruct (match cavpts with
            | Some pts => ret pts
            | None => _
            end) as [l [pts|e]]; [|discriminate].
  destruct (get_timelag_fromU0 ring method (Some pts)) as [l' [tl|e]];
    [|discriminate].
  destruct (set_value_refpts_TimeLag ring pts tl copy) as [ring' copied].
  simpl; intros H; now injection H as <-.
Qed.

(** C6. On the ring with the weaker harmonic cavity, [set_cavity_phase]
    with [copy=True] leaves the supplied lattice as it was and returns
    None: the copy that holds the new time-lags is built and dropped. *)
Theorem set_cavity_phase_copy_is_lost :
  set_cavity_phase (env := Example.env) Example.ring_harmonic
                   (Method INTEGRAL) None None true
  = ([Stderr time_reference_notice],
     Ok (mkPhaseCall Example.ring_harmonic None)).
Proof.
  unfold set_cavity_phase.
  change (get_refpts_RFCavity Example.ring_harmonic) with [1%nat; 2%nat].
  unfold bind at 1; unfold ret at 1; cbv beta iota.
  rewrite (harmonic_timelag (Some [1%nat; 2%nat]) (or_intror eq_refl)).
  reflexivity.
Qed.

(** With [copy=False] the same call writes the new time-lags onto the two
    cavities of the supplied lattice, and onto nothing else. *)
Lemma set_cavity_phase_in_place :
  set_cavity_phase (env := Example.env) Example.ring_harmonic
                   (Method INTEGRAL) None None false
  = ([Stderr time_reference_notice],
     Ok (mkPhaseCall
           (Example.two_cavity_ring 4e6 (0 + 0.1 - 0.1) 1e6 (0 + 0.3 - 0.1))
           None)).
Proof.
  unfold set_cavity_phase.
  change (get_refpts_RFCavity Example.ring_harmonic) with [1%nat; 2%nat].
  unfold bind at 1; unfold ret at 1; cbv beta iota.
  rewrite (harmonic_timelag (Some [1%nat; 2%nat]) (or_intror eq_refl)).
  reflexivity.
Qed.

(** ** The theorems at the example rings *)

Lemma unstable_ring_error_witness :
  (get_energy_loss (env := Example.env) Example.ring_unstable (Method INTEGRAL)
   = ([], Ok (described_energy_loss (env := Example.env)
                                    Example.ring_unstable))
   /\ available_voltage (env := Example.env) Example.ring_unstable None
      = Some (numpy_sum [1e5])
   /\ described_energy_loss (env := Example.env) Example.ring_unstable
      > numpy_sum [1e5])
  /\ get_timelag_fromU0 (env := Example.env) Example.ring_unstable
                        (Method INTEGRAL) None
     = ([], Raise (AtError Not_enough_RF_voltage)).
Proof.
  split.
  - split; [exact unstable_loss|].
    split; [reflexivity | exact unstable_loss_exceeds_voltage].
  - exact (proj1 (unstable_ring_error (env := Example.env)
                    Example.ring_unstable (Method INTEGRAL) None [] _ _
                    unstable_loss eq_refl)
                 unstable_loss_exceeds_voltage).
Defined.

Lemma timelag_relative_to_reference_witness :
  (single_frequency (env := Example.env) Example.ring_harmonic None = false
   /\ outcome (get_timelag_fromU0 (env := Example.env) Example.ring_harmonic
                                  (Method INTEGRAL) None)
      = Ok [0 + 0.1 - 0.1; 0 + 0.3 - 0.1]
   /\ cavity_set_attr Example.ring_harmonic None "Frequency" cav_Frequency
      = Ok [Example.f_main; 3 * Example.f_main]
   /\ cavity_set_attr Example.ring_harmonic None "TimeLag" cav_TimeLag
      = Ok [0.1; 0.3]
   /\ numpy_argmin [Example.f_main; 3 * Example.f_main] = Ok 0%nat)
  /\ exists phis,
       forall i, (i < 2)%nat ->
                 nth i [0 + 0.1 - 0.1; 0 + 0.3 - 0.1] 0
                 = phis + nth i [0.1; 0.3] 0 - 0.1.
Proof.
  assert (H1 : single_frequency (env := Example.env) Example.ring_harmonic None
               = false)
    by exact (two_cavity_not_single 4e6 0.1 1e6 0.3 None (or_introl eq_refl)).
  assert (H2 : outcome (get_timelag_fromU0 (env := Example.env)
                          Example.ring_harmonic (Method INTEGRAL) None)
               = Ok [0 + 0.1 - 0.1; 0 + 0.3 - 0.1])
    by (rewrite (harmonic_timelag None (or_introl eq_refl)); reflexivity).
  split.
  - repeat (split; [first [exact H1 | exact H2 | reflexivity]|]).
    exact two_cavity_argmin.
  - destruct (timelag_relative_to_reference (env := Example.env)
                Example.ring_harmonic (Method INTEGRAL) None
                [0 + 0.1 - 0.1; 0 + 0.3 - 0.1]
                [Example.f_main; 3 * Example.f_main] [0.1; 0.3] 0%nat
                H1 H2 eq_refl eq_refl two_cavity_argmin)
      as [_ [u0 [rfv [zero_diff [phis [_ [_ [_ [_ Hentries]]]]]]]]].
    exists phis; exact Hentries.
Defined.

Lemma method_argument_handling_witness :
  (str_upper (Env := Example.env) "Integral" = ELossMethod_name INTEGRAL
   /\ same_ignoring_case "Integral" (ELossMethod_name INTEGRAL) = true
   /\ get_energy_loss (env := Example.env) Example.ring_single
                      (MethodStr "Integral")
      = (emit (FutureWarning "You should use ELossMethod.INTEGRAL");;
         get_energy_loss (env := Example.env) Example.ring_single
                         (Method INTEGRAL)))
  /\ ((forall m, str_upper (Env := Example.env) "integration"
                  <> ELossMethod_name m)
      /\ get_energy_loss (env := Example.env) Example.ring_single
                         (MethodStr "integration")
         = raise (KeyError "INTEGRATION")).
Proof.
  pose proof (method_argument_handling (env := Example.env)
                Example.ring_single)
    as [_ [Hunknown [Hmember [Hcase Hascii]]]].
  split.
  - split; [exact (Hcase "Integral" INTEGRAL eq_refl)|].
    split; [exact (Hascii "Integral" INTEGRAL eq_refl eq_refl)|].
    exact (Hmember "Integral" INTEGRAL eq_refl).
  - assert (H : forall m, str_upper (Env := Example.env) "integration"
                          <> ELossMethod_name m)
      by (intros []; discriminate).
    split; [exact H|].
    exact (proj1 (Hunknown "integration" H)).
Defined.

Lemma radiation_preconditions_witness :
  (radiation Example.ring_single = false
   /\ get_energy_loss (env := Example.env) Example.ring_single
                      (Method TRACKING)
      = raise (AtError (Wrong_radiation_state true))
   /\ exists mcf,
        outcome (get_mcf (env := Example.env) Example.ring_single
                         Example.no_kwargs) = Ok mcf)
  /\ (radiation Example.ring_radiating = true
      /\ get_mcf (env := Example.env) Example.ring_radiating Example.no_kwargs
         = raise (AtError (Wrong_radiation_state false))
      /\ exists loss,
           outcome (get_energy_loss (env := Example.env)
                      Example.ring_radiating (Method TRACKING)) = Ok loss).
Proof.
  pose proof (radiation_preconditions (env := Example.env)
                Example.ring_single Example.no_kwargs) as [Hoff [_ [_ Hmcf]]].
  pose proof (radiation_preconditions (env := Example.env)
                Example.ring_radiating Example.no_kwargs)
    as [_ [Hloss [Hon _]]].
  split.
  - split; [reflexivity|].
    split; [exact (Hoff eq_refl) | exact (Hmcf eq_refl)].
  - split; [reflexivity|].
    split; [exact (Hon eq_refl) | exact (Hloss eq_refl)].
Defined.

(** ** The radiation integral at the probe rings *)

Lemma example_Brho_inverse (els : list Element) :
  0 < 1 / described_Brho (env := Example.env) (Example.ring_of els)
    <= 299792458.
Proof.
  pose proof (example_Brho_lower els) as H.
  set (Brho := described_Brho _) in *.
  assert (Hc : 0 < / 299792458) by (apply Rinv_0_lt_compat; lra).
  assert (HB : 0 < Brho) by lra.
  unfold Rdiv; rewrite Rmult_1_l; split.
  - now apply Rinv_0_lt_compat.
  - rewrite <- (Rinv_inv 299792458).
    apply Rinv_le_contravar; assumption.
Qed.

Lemma wiggler_ring_arithmetic :
  arithmetic_defined (env := Example.env) Probe.ring_wiggler.
Proof.
  apply example_arithmetic_defined; intros el Hel.
  pose proof (example_Brho_lower
                [Probe.bend 0.1; Example.drift; Probe.wiggler]) as HB.
  pose proof (example_Brho_inverse
                [Probe.bend 0.1; Example.drift; Probe.wiggler]) as Hinv.
  assert (Hc : 0 < / 299792458) by (apply Rinv_0_lt_compat; lra).
  simpl in Hel; destruct Hel as [<-|[<-|[<-|[]]]]; simpl.
  - split; [apply small_in_float_range; rewrite Rabs_pos_eq; lra | lra].
  - exact I.
  - intros _.
    set (Brho := described_Brho _) in *.
    split; [lra|].
    split; [unfold has_harmonics; simpl; lia|].
    split; [unfold has_harmonics; simpl; lia|].
    set (q := 1 / Brho) in *.
    apply small_in_float_range.
    rewrite Rabs_pos_eq by nra.
    nra.
Qed.

Lemma wiggler_ring_loss :
  get_energy_loss (env := Example.env) Probe.ring_wiggler (Method INTEGRAL)
  = ret (described_energy_loss (env := Example.env) Probe.ring_wiggler).
Proof. exact (integral_loss_value _ wiggler_ring_arithmetic). Qed.

(** The two tables of the wiggler enter the loss through their second
    rows. *)
Lemma wiggler_ring_I2 :
  described_I2 (env := Example.env) Probe.ring_wiggler
  = 0 + 0.1 ^ 2 / 2
    + 2 * (0 + 0.6 * 0.6 + 0.8 * 0.8 + (0 + 0.5 * 0.5))
      * (1 / described_Brho (env := Example.env) Probe.ring_wiggler) ^ 2 / 2.
Proof. reflexivity. Qed.

(** On the ring with the thin bending magnet the division by the length
    raises. *)
Lemma thin_dipole_raises :
  get_energy_loss (env := Example.env) Probe.ring_thin_dipole
                  (Method INTEGRAL)
  = raise ZeroDivisionError.
Proof.
  unfold get_energy_loss, integral.
  change (@e_mass Example.env) with 510998.95.
  change (@clight Example.env) with 299792458.
  change (energy Probe.ring_thin_dipole) with 6e9.
  rewrite (float_pow_Ok 6e9 2)
    by (apply small_in_float_range; rewrite Rabs_pos_eq; lra).
  next_step.
  rewrite (float_pow_Ok 510998.95 2)
    by (apply small_in_float_range; rewrite Rabs_pos_eq; lra).
  next_step.
  rewrite math_sqrt_Ok by lra.
  next_step.
  rewrite float_div_Ok by lra.
  next_step.
  unfold Probe.ring_thin_dipole, Example.ring_of, elements, i2_loop, i2_step,
    dipole_i2, dip_BendingAngle, dip_Length.
  rewrite (float_pow_Ok 0.1 2)
    by (apply small_in_float_range; rewrite Rabs_pos_eq; lra).
  next_step.
  rewrite float_div_zero.
  reflexivity.
Qed.

(** C4, as stated, fails on the ring with the thin bending magnet: the call
    returns no loss. *)
Lemma thin_dipole_loss_not_described :
  ~ loss_is_described (env := Example.env) Probe.ring_thin_dipole.
Proof.
  unfold loss_is_described; rewrite thin_dipole_raises; discriminate.
Qed.

Lemma integral_energy_loss_witness :
  (arithmetic_defined (env := Example.env) Probe.ring_wiggler
   /\ get_energy_loss (env := Example.env) Probe.ring_wiggler
                      (Method INTEGRAL)
      = ret (described_energy_loss (env := Example.env) Probe.ring_wiggler))
  /\ ((exists d, In (Dipole d) (elements Probe.ring_thin_dipole)
                 /\ dip_Length d = 0)
      /\ forall u0,
           outcome (get_energy_loss (env := Example.env)
                      Probe.ring_thin_dipole (Method INTEGRAL)) <> Ok u0).
Proof.
  assert (Hthin : exists d, In (Dipole d) (elements Probe.ring_thin_dipole)
                            /\ dip_Length d = 0).
  { exists (mkDipole 0 0.1 "BndMPoleSymplectic4Pass").
    split; [now left | reflexivity]. }
  split.
  - split; [exact wiggler_ring_arithmetic|].
    exact (proj1 (integral_energy_loss (env := Example.env)
                    Probe.ring_wiggler)
                 wiggler_ring_arithmetic).
  - split; [exact Hthin|].
    exact (proj1 (proj2 (integral_energy_loss (env := Example.env)
                           Probe.ring_thin_dipole))
                 Hthin).
Defined.

(** ** The slip factor on binary64 numbers *)




(** * Further properties of the two modules *)

(** ** The radiation integral *)

Lemma add_contribution_nonnegative (Brho acc : R) (el : Element) :
  (forall d, el = Dipole d -> 0 < dip_Length d) ->
  (forall w, el = Wiggler w -> 0 <= wig_Length w) ->
  0 <= acc ->
  0 <= add_contribution Brho acc el.
Proof.
  intros Hd Hw Hacc; unfold add_contribution.
  destruct el as [d|w|c|fam len]; simpl; try exact Hacc.
  - pose proof (Hd d eq_refl) as Hl.
    assert (0 <= dip_BendingAngle d ^ 2 / dip_Length d).
    { apply Rmult_le_pos; [apply pow2_ge_0|].
      left; now apply Rinv_0_lt_compat. }
    lra.
  - destruct (String.eqb (wig_PassMethod w) "DriftPass"); [exact Hacc|].
    pose proof (Hw w eq_refl) as Hl.
    pose proof (sum_of_squares_nonnegative (harmonic_coefficients (wig_By w))).
    pose proof (sum_of_squares_nonnegative (harmonic_coefficients (wig_Bx w))).
    pose proof (pow2_ge_0 (wig_Bmax w / Brho)).
    assert (0 <= wig_Length w
                 * (sum_of_squares (harmonic_coefficients (wig_By w))
                    + sum_of_squares (harmonic_coefficients (wig_Bx w)))
                 * (wig_Bmax w / Brho) ^ 2 / 2).
    { apply Rmult_le_pos; [|lra].
      apply Rmult_le_pos; [|assumption].
      apply Rmult_le_pos; [assumption | lra]. }
    lra.
Qed.

Lemma contributions_nonnegative (Brho : R) (els : list Element) (acc : R) :
  (forall d, In (Dipole d) els -> 0 < dip_Length d) ->
  (forall w, In (Wiggler w) els -> 0 <= wig_Length w) ->
  0 <= acc ->
  0 <= fold_left (add_contribution Brho) els acc.
Proof.
  revert acc; induction els as [|el els IH]; intros acc Hd Hw Hacc; simpl;
    [exact Hacc|].
  apply IH.
  - intros d H; apply Hd; now right.
  - intros w H; apply Hw; now right.
  - apply add_contribution_nonnegative; [| |exact Hacc].
    + intros d ->; apply Hd; now left.
    + intros w ->; apply Hw; now left.
Qed.

Section IntegralFurther.
Context {env : Env}.

Lemma described_energy_loss_nonnegative (ring : Lattice) :
  0 <= Cgamma ->
  (0 <= periodicity ring)%Z ->
  (forall d, In (Dipole d) (elements ring) -> 0 < dip_Length d) ->
  (forall w, In (Wiggler w) (elements ring) -> 0 <= wig_Length w) ->
  0 <= described_energy_loss ring.
Proof.
  intros HC Hp Hd Hw; unfold described_energy_loss.
  assert (HI : 0 <= described_I2 ring)
    by (apply contributions_nonnegative; [assumption | assumption | lra]).
  assert (0 <= IZR (periodicity ring)) by now apply IZR_le.
  assert (0 < / PI) by (apply Rinv_0_lt_compat, PI_RGT_0).
  assert (0 <= energy ring ^ 4).
  { replace (energy ring ^ 4) with ((energy ring ^ 2) ^ 2) by ring.
    apply pow2_ge_0. }
  unfold Rdiv.
  set (E4 := energy ring ^ 4) in *.
  apply Rmult_le_pos; [assumption|].
  apply Rmult_le_pos; [|assumption].
  apply Rmult_le_pos; [|assumption].
  apply Rmult_le_pos; [|now left].
  apply Rmult_le_pos; [assumption | lra].
Qed.

(** X1. With a non-negative radiation constant and periodicity, dipoles of
    positive length and wigglers of non-negative length, a loss that the
    INTEGRAL method returns is never negative. *)
Theorem integral_loss_nonnegative (ring : Lattice) (u0 : R) :
  0 <= Cgamma ->
  (0 <= periodicity ring)%Z ->
  (forall d, In (Dipole d) (elements ring) -> 0 < dip_Length d) ->
  (forall w, In (Wiggler w) (elements ring) -> 0 <= wig_Length w) ->
  outcome (get_energy_loss ring (Method INTEGRAL)) = Ok u0 ->
  0 <= u0.
Proof.
  intros HC Hp Hd Hw Hout.
  destruct (integral_loss_inv ring u0 Hout) as [v [Hv ->]].
  destruct (integral_inv ring v Hv) as [_ [_ ->]].
  exact (described_energy_loss_nonnegative ring HC Hp Hd Hw).
Qed.

End IntegralFurther.

(** ** The fallback path of the time-lag *)

Lemma select_length (ring : Lattice) (pts : list nat) (els : list Element) :
  select ring pts = Ok els -> List.length els = List.length pts.
Proof.
  revert els; induction pts as [|i pts IH]; intros els H; simpl in H.
  - now injection H as <-.
  - destruct (nth_error (elements ring) i) as [el|]; [|discriminate].
    destruct (select ring pts) as [els'|err]; [|discriminate].
    injection H as <-; simpl; f_equal; now apply IH.
Qed.

Section FallbackFurther.
Context {env : Env}.

(** What a time-lag returned by the fallback path went through. *)
Lemma fallback_Ok (ring : Lattice) (u0 : R) (cavpts : refpts)
    (cs : list RFCavityT) (timelag : list R) :
  select ring (cavity_points ring cavpts) = Ok (map RFCavity cs) ->
  timelag_fallback ring u0 cavpts = Ok timelag ->
  let freq := map cav_Frequency cs in
  let rfv := map cav_Voltage cs in
  let tl0 := map cav_TimeLag cs in
  exists fmin zero_diff phis k,
    numpy_amin freq = Ok fmin
    /\ least_squares (deq_fun rfv freq) (1 / fmin * clight / 2 / 2)
                     (0, 1 / fmin * clight / 2) = Some zero_diff
    /\ least_squares (eq_fun rfv freq u0) (zero_diff / 2) (0, zero_diff)
       = Some phis
    /\ numpy_argmin freq = Ok k
    /\ timelag = map (fun t => phis + t - nth k tl0 0) tl0.
Proof.
  intros Hsel Hfb freq rfv tl0.
  destruct (Rgtb u0 (numpy_sum (map cav_Voltage cs))) eqn:Hgt.
  { rewrite (fallback_unstable ring u0 cavpts cs Hsel Hgt) in Hfb.
    discriminate. }
  rewrite (fallback_stable ring u0 cavpts cs Hsel Hgt) in Hfb.
  cbv zeta in Hfb; fold freq rfv tl0 in Hfb.
  destruct (numpy_amin freq) as [fmin|e]; [|discriminate].
  destruct (least_squares (deq_fun _ _) _ _) as [zero_diff|] eqn:Hzero;
    [|discriminate].
  destruct (Rgtb _ 0); [|discriminate].
  destruct (least_squares (eq_fun _ _ _) _ _) as [phis|] eqn:Hphis;
    [|discriminate].
  destruct (numpy_argmin freq) as [k|e]; [|discriminate].
  injection Hfb as <-.
  now exists fmin, zero_diff, phis, k.
Qed.

(** A time-lag returned by a call that did not take the single-frequency
    path comes from the fallback path. *)
Lemma get_timelag_fallback (ring : Lattice) (method : method_arg)
    (cavpts : refpts) (timelag : list R) :
  single_frequency ring cavpts = false ->
  outcome (get_timelag_fromU0 ring method cavpts) = Ok timelag ->
  exists l u0,
    get_energy_loss ring method = (l, Ok u0)
    /\ timelag_fallback ring u0 cavpts = Ok timelag.
Proof.
  intros Hsingle Hout.
  destruct (get_energy_loss ring method) as [l [u0|e]] eqn:Hloss.
  2:{ rewrite (get_timelag_raises ring method cavpts l e Hloss) in Hout.
      discriminate. }
  exists l, u0; split; [reflexivity|].
  rewrite (get_timelag_outcome ring method cavpts l u0 Hloss) in Hout.
  unfold outcome in Hout; simpl in Hout.
  unfold single_frequency in Hsingle.
  destruct (get_rf_voltage ring cavpts);
    [destruct (get_rf_frequency ring cavpts); [discriminate|]|];
    exact Hout.
Qed.

Lemma get_timelag_of_fallback (ring : Lattice) (method : method_arg)
    (cavpts : refpts) (l : list event) (u0 : R) :
  single_frequency ring cavpts = false ->
  get_energy_loss ring method = (l, Ok u0) ->
  get_timelag_fromU0 ring method cavpts
  = (l, timelag_fallback ring u0 cavpts).
Proof.
  intros Hsingle Hloss.
  rewrite (get_timelag_outcome ring method cavpts l u0 Hloss).
  unfold single_frequency in Hsingle.
  destruct (get_rf_voltage ring cavpts);
    [destruct (get_rf_frequency ring cavpts); [discriminate|]|];
    reflexivity.
Qed.

(** X4. When the combined accessors fail and the cavity set is empty, the
    call returns nothing: it raises the unstable-ring error if the loss is
    positive and otherwise a ValueError, from the minimum of an empty array
    of frequencies. *)
Theorem empty_cavity_set (ring : Lattice) (method : method_arg)
    (cavpts : refpts) (l : list event) (u0 : R) :
  single_frequency ring cavpts = false ->
  cavity_points ring cavpts = [] ->
  get_energy_loss ring method = (l, Ok u0) ->
  (u0 > 0 ->
   get_timelag_fromU0 ring method cavpts
   = (l, Raise (AtError Not_enough_RF_voltage)))
  /\ (u0 <= 0 ->
      get_timelag_fromU0 ring method cavpts = (l, Raise ValueError)).
Proof.
  intros Hsingle Hpts Hloss.
  rewrite (get_timelag_of_fallback ring method cavpts l u0 Hsingle Hloss).
  assert (Hsel : select ring (cavity_points ring cavpts)
                 = Ok (map RFCavity []))
    by now rewrite Hpts.
  split; intros Hu.
  - rewrite (fallback_unstable ring u0 cavpts [] Hsel); [reflexivity|].
    now apply Rgtb_true.
  - rewrite (fallback_stable ring u0 cavpts [] Hsel); [reflexivity|].
    now apply Rgtb_false.
Qed.

(** X5. A time-lag assignment returned by the fallback path has exactly one
    entry for each reference point of the cavity set. *)
Theorem fallback_one_entry_per_cavity (ring : Lattice) (method : method_arg)
    (cavpts : refpts) (timelag : list R) :
  single_frequency ring cavpts = false ->
  outcome (get_timelag_fromU0 ring method cavpts) = Ok timelag ->
  List.length timelag = List.length (cavity_points ring cavpts).
Proof.
  intros Hsingle Hout.
  destruct (get_timelag_fallback ring method cavpts timelag Hsingle Hout)
    as [l [u0 [_ Hfb]]].
  assert (Hcs : exists cs, select ring (cavity_points ring cavpts)
                           = Ok (map RFCavity cs)).
  { unfold timelag_fallback in Hfb; fold (cavity_points ring cavpts) in Hfb.
    destruct (select ring (cavity_points ring cavpts)) as [cavs|e];
      [|discriminate].
    destruct (cavity_attr "Frequency" cav_Frequency cavs) as [freq|e'] eqn:Hf;
      [|discriminate].
    destruct (cavity_attr_Ok _ _ _ _ Hf) as [cs [-> _]].
    now exists cs. }
  destruct Hcs as [cs Hsel].
  destruct (fallback_Ok ring u0 cavpts cs timelag Hsel Hfb)
    as [fmin [zero_diff [phis [k [_ [_ [_ [_ ->]]]]]]]].
  rewrite !length_map.
  rewrite <- (select_length _ _ _ Hsel); now rewrite length_map.
Qed.

End FallbackFurther.

(** ** Setting the cavity phase *)

Section PhaseFurther.
Context {env : Env}.

(** X8. On a ring whose cavity set takes the single-frequency path,
    [set_cavity_phase] never completes, whatever the method and the copy
    flag: the time-lag computation raises before anything is assigned. *)
Theorem set_cavity_phase_single_frequency_fails (ring : Lattice)
    (method : method_arg) (refpts_kw cavpts : refpts) (copy : bool)
    (pc : phase_call) :
  single_frequency ring (Some (resolved_cavpts ring refpts_kw cavpts)) = true ->
  outcome (set_cavity_phase ring method refpts_kw cavpts copy) <> Ok pc.
Proof.
  intros Hsingle; unfold set_cavity_phase, outcome.
  assert (Hpts : exists l,
             match cavpts, refpts_kw with
             | None, Some pts =>
                 emit (FutureWarning
                         "You should use 'cavpts' instead of 'refpts'");;
                 ret pts
             | None, None => ret (get_refpts_RFCavity ring)
             | Some pts, _ => ret pts
             end = (l, Ok (resolved_cavpts ring refpts_kw cavpts))).
  { destruct cavpts as [c|]; [|destruct refpts_kw as [r|]];
      eexists; reflexivity. }
  destruct Hpts as [l0 ->]; unfold bind at 1.
  pose proof (single_path_never_returns ring method
                (Some (resolved_cavpts ring refpts_kw cavpts))) as Hnever.
  unfold outcome in Hnever.
  destruct (get_timelag_fromU0 ring method
              (Some (resolved_cavpts ring refpts_kw cavpts)))
    as [l1 [tl|e]].
  - now contradiction (Hnever tl Hsingle).
  - discriminate.
Qed.

(** X9. The keywords of [set_cavity_phase]: when [cavpts] is given,
    [refpts] is ignored; when only [refpts] is given, the call warns and
    then is the call with [cavpts] set to it; when neither is given, the
    call is the one on all the cavities of the ring. *)
Theorem set_cavity_phase_keywords (ring : Lattice) (method : method_arg)
    (copy : bool) :
  (forall r c,
     set_cavity_phase ring method r (Some c) copy
     = set_cavity_phase ring method None (Some c) copy)
  /\ (forall r,
        set_cavity_phase ring method (Some r) None copy
        = (emit (FutureWarning "You should use 'cavpts' instead of 'refpts'");;
           set_cavity_phase ring method None (Some r) copy))
  /\ set_cavity_phase ring method None None copy
     = set_cavity_phase ring method None (Some (get_refpts_RFCavity ring))
                        copy.
Proof.
  split; [reflexivity|]; split; [|reflexivity].
  intros r; unfold set_cavity_phase, bind, emit, ret.
  destruct (get_timelag_fromU0 ring method (Some r)) as [l [tl|e]];
    [|reflexivity].
  destruct (set_value_refpts_TimeLag ring r tl copy); reflexivity.
Qed.

End PhaseFurther.

(** ** Revolution frequency *)

Section RevolutionFurther.
Context {env : Env}.

(** X10. On a cell of non-zero length, a path length deviation of zero
    gives the revolution frequency that no deviation gives, whatever the
    momentum deviation that comes with it. *)
Theorem revolution_frequency_zero_dct (ring : Lattice) (dp : option R) :
  get_s_pos ring (List.length (elements ring)) <> 0 ->
  get_revolution_frequency ring dp (Some 0)
  = get_revolution_frequency ring None None.
Proof.
  intros Hl; unfold get_revolution_frequency, ret.
  set (lcell := get_s_pos ring (List.length (elements ring))) in *.
  do 2 f_equal.
  replace (lcell / (lcell + 0)) with 1 by (field; exact Hl).
  ring.
Qed.

End RevolutionFurther.

(** ** Keyword dictionaries *)

Lemma kw_get_remove_same (key : string) (kw : kwargs) :
  kw_get key (kw_remove key kw) = None.
Proof.
  induction kw as [|[k v] kw IH]; simpl; [reflexivity|].
  destruct (String.eqb key k) eqn:E; simpl; [exact IH|].
  now rewrite E.
Qed.

Lemma kw_get_remove_other (key other : string) (kw : kwargs) :
  String.eqb key other = false ->
  kw_get key (kw_remove other kw) = kw_get key kw.
Proof.
  intros Hne; induction kw as [|[k v] kw IH]; simpl; [reflexivity|].
  destruct (String.eqb other k) eqn:E; simpl.
  - apply String.eqb_eq in E; subst k; now rewrite Hne.
  - now rewrite IH.
Qed.

(** The loop of the wrapper collects the momentum keywords that are given
    a value and leaves the dictionary without the three keys. *)
Lemma collect_momargs_control (kw : kwargs) :
  collect_momargs ["dp"; "dct"; "df"] kw
  = (momargs_of kw, without_control_keys kw).
Proof.
  unfold collect_momargs, kw_pop, momargs_of, kw_given, without_control_keys.
  rewrite (kw_get_remove_other "df" "dct") by reflexivity.
  rewrite (kw_get_remove_other "df" "dp") by reflexivity.
  rewrite (kw_get_remove_other "dct" "dp") by reflexivity.
  destruct (kw_get "dp" kw) as [[| |]|];
    destruct (kw_get "dct" kw) as [[| |]|];
    destruct (kw_get "df" kw) as [[| |]|]; reflexivity.
Qed.

Lemma without_control_keys_get (key : string) (kw : kwargs) :
  kw_get key (without_control_keys kw)
  = if String.eqb key "dp" || String.eqb key "dct" || String.eqb key "df"
    then None else kw_get key kw.
Proof.
  unfold without_control_keys.
  destruct (String.eqb key "df") eqn:Edf.
  { apply String.eqb_eq in Edf; subst key.
    rewrite kw_get_remove_same; reflexivity. }
  rewrite (kw_get_remove_other key "df") by exact Edf.
  destruct (String.eqb key "dct") eqn:Edct.
  { apply String.eqb_eq in Edct; subst key.
    rewrite kw_get_remove_same; reflexivity. }
  rewrite (kw_get_remove_other key "dct") by exact Edct.
  destruct (String.eqb key "dp") eqn:Edp.
  { apply String.eqb_eq in Edp; subst key.
    rewrite kw_get_remove_same; reflexivity. }
  now rewrite (kw_get_remove_other key "dp") by exact Edp.
Qed.

(** ** Frequency control *)

Section ControlFurther.
Context {env : Env} {cav : CavityAccess}.

(** X12. The wrapper of [frequency_control]: on a ring without radiation
    the wrapped function is called on the ring with the keywords as they
    are; on a ring with radiation it is called with the keywords dp, dct
    and df taken out and every other keyword kept, on the ring itself when
    none of the three is given a value, and otherwise on what
    [set_rf_frequency] returns for the given ones and [copy=True]; when
    that call raises, the function is not called. *)
Theorem frequency_control_cases {A : Type}
    (func : option Lattice -> kwargs -> M A) (ring : Lattice) (kw : kwargs) :
  (radiation ring = false ->
   frequency_control func ring kw = func (Some ring) kw)
  /\ (radiation ring = true ->
      frequency_control func ring kw
      = match momargs_of kw with
        | [] => func (Some ring) (without_control_keys kw)
        | _ :: _ =>
            ring' <- call_set_rf_frequency ring
                       (momargs_of kw ++ [("copy", VBool true)]);;
            func ring' (without_control_keys kw)
        end)
  /\ (forall key,
        kw_get key (without_control_keys kw)
        = if String.eqb key "dp" || String.eqb key "dct"
             || String.eqb key "df"
          then None else kw_get key kw).
Proof.
  split; [|split].
  - intros Hrad; unfold frequency_control; now rewrite Hrad.
  - intros Hrad; unfold frequency_control.
    rewrite Hrad, collect_momargs_control.
    destruct (momargs_of kw); reflexivity.
  - intros key; apply without_control_keys_get.
Qed.

(** X13. On a ring with radiation, a call that gives only df a value has
    the wrapped function run on what [set_cavity] returns for the nominal
    RF frequency, harmonic number times beta c / lcell / periodicity, with
    df handed on as a keyword beside [copy=True]: df does not enter the
    frequency. *)
Theorem frequency_control_df_only {A : Type}
    (func : option Lattice -> kwargs -> M A) (ring : Lattice) (kw : kwargs)
    (df : R) :
  radiation ring = true ->
  kw_unset "dp" kw = true ->
  kw_unset "dct" kw = true ->
  kw_get "df" kw = Some (VFloat df) ->
  frequency_control func ring kw
  = (ring' <- lift (set_cavity ring
                      (beta ring * clight
                       / get_s_pos ring (List.length (elements ring))
                       / IZR (periodicity ring)
                       * IZR (harmonic_number ring))
                      [("df", VFloat df); ("copy", VBool true)]);;
     func ring' (without_control_keys kw)).
Proof.
  intros Hrad Hdp Hdct Hdf; unfold frequency_control.
  rewrite Hrad, collect_momargs_control.
  assert (Hmom : momargs_of kw = [("df", VFloat df)]).
  { unfold momargs_of, kw_given; unfold kw_unset in Hdp, Hdct.
    rewrite Hdf.
    destruct (kw_get "dp" kw) as [[| |]|]; try discriminate;
      destruct (kw_get "dct" kw) as [[| |]|]; try discriminate;
      reflexivity. }
  rewrite Hmom; simpl.
  unfold call_set_rf_frequency, set_rf_frequency; simpl.
  unfold bind, ret, lift; simpl.
  destruct (set_cavity ring _ _); reflexivity.
Qed.

(** X14. [set_rf_frequency]: a frequency that is given goes to
    [set_cavity] as it is, whatever dp and dct are, and nothing is tracked;
    without one and with [dct], what goes to [set_cavity] is the nominal
    revolution frequency beta*c/lcell/periodicity, times
    lcell/(lcell + dct), times the harmonic number, whatever dp is, and
    nothing is tracked either. *)
Theorem set_rf_frequency_harmonic (ring : Lattice) (kw : kwargs) :
  let lcell := get_s_pos ring (List.length (elements ring)) in
  (forall frequency dp dct,
     set_rf_frequency ring (Some frequency) dp dct kw
     = lift (set_cavity ring frequency kw))
  /\ (forall dp dct,
        set_rf_frequency ring None dp (Some dct) kw
        = lift (set_cavity ring
                  (beta ring * clight / lcell / IZR (periodicity ring)
                   * (lcell / (lcell + dct))
                   * IZR (harmonic_number ring))
                  kw))
  /\ (forall frequency dp dct,
        frequency <> None \/ dct <> None ->
        log (set_rf_frequency ring frequency dp dct kw) = []).
Proof.
  intros lcell; split; [reflexivity|]; split; [reflexivity|].
  intros frequency dp dct H.
  destruct frequency as [f|].
  - unfold set_rf_frequency, bind, ret, lift, log; simpl.
    destruct (set_cavity ring f kw); reflexivity.
  - destruct dct as [dct|]; [|destruct H as [H|H]; now contradiction H].
    unfold set_rf_frequency, get_revolution_frequency, bind, ret, lift, log.
    reflexivity.
Qed.

End ControlFurther.

(** ** The further properties at example rings *)

Lemma bends_dipoles_positive (d : DipoleT) :
  In (Dipole d) (elements Probe.ring_wiggler) -> 0 < dip_Length d.
Proof.
  simpl; intros [H|[H|[H|[]]]]; try discriminate;
    injection H as <-; simpl; lra.
Qed.

Lemma bends_wigglers (w : WigglerT) :
  In (Wiggler w) (elements Probe.ring_wiggler) -> 0 <= wig_Length w.
Proof.
  simpl; intros [H|[H|[H|[]]]]; try discriminate;
    injection H as <-; simpl; lra.
Qed.

Lemma example_Cgamma_nonnegative : 0 <= Cgamma (Env := Example.env).
Proof. change (@Cgamma Example.env) with 8.846e-32; lra. Qed.

Lemma integral_loss_nonnegative_witness :
  (0 <= Cgamma (Env := Example.env)
   /\ (0 <= periodicity Probe.ring_wiggler)%Z
   /\ outcome (get_energy_loss (env := Example.env) Probe.ring_wiggler
                               (Method INTEGRAL))
      = Ok (described_energy_loss (env := Example.env) Probe.ring_wiggler))
  /\ 0 <= described_energy_loss (env := Example.env) Probe.ring_wiggler.
Proof.
  assert (Hp : (0 <= periodicity Probe.ring_wiggler)%Z) by discriminate.
  assert (Hout : outcome (get_energy_loss (env := Example.env)
                            Probe.ring_wiggler (Method INTEGRAL))
                 = Ok (described_energy_loss (env := Example.env)
                                             Probe.ring_wiggler))
    by (rewrite wiggler_ring_loss; reflexivity).
  split.
  - split; [exact example_Cgamma_nonnegative|]; split; [exact Hp | exact Hout].
  - exact (integral_loss_nonnegative (env := Example.env) Probe.ring_wiggler
             _ example_Cgamma_nonnegative Hp bends_dipoles_positive
             bends_wigglers Hout).
Defined.

Lemma no_cavity_loss :
  get_energy_loss (env := Example.env) Probe.ring_no_cavity (Method INTEGRAL)
  = ([], Ok 0).
Proof. apply lossless_ring; simpl; intros el [<-|[]]; exact I. Qed.

Lemma empty_cavity_set_witness :
  (single_frequency (env := Example.env) Probe.ring_no_cavity None = false
   /\ cavity_points Probe.ring_no_cavity None = []
   /\ 0 <= 0)
  /\ get_timelag_fromU0 (env := Example.env) Probe.ring_no_cavity
                        (Method INTEGRAL) None
     = ([], Raise ValueError).
Proof.
  split.
  - split; [reflexivity|]; split; [reflexivity | apply Rle_refl].
  - exact (proj2 (empty_cavity_set (env := Example.env) Probe.ring_no_cavity
                    (Method INTEGRAL) None [] 0 eq_refl eq_refl
                    no_cavity_loss)
                 (Rle_refl 0)).
Defined.

Lemma harmonic_not_single :
  single_frequency (env := Example.env) Example.ring_harmonic None = false.
Proof.
  exact (two_cavity_not_single 4e6 0.1 1e6 0.3 None (or_introl eq_refl)).
Qed.

Lemma harmonic_outcome :
  outcome (get_timelag_fromU0 (env := Example.env) Example.ring_harmonic
                              (Method INTEGRAL) None)
  = Ok [0 + 0.1 - 0.1; 0 + 0.3 - 0.1].
Proof. now rewrite (harmonic_timelag None (or_introl eq_refl)). Qed.

Lemma fallback_one_entry_per_cavity_witness :
  (single_frequency (env := Example.env) Example.ring_harmonic None = false
   /\ outcome (get_timelag_fromU0 (env := Example.env) Example.ring_harmonic
                                  (Method INTEGRAL) None)
      = Ok [0 + 0.1 - 0.1; 0 + 0.3 - 0.1])
  /\ List.length [0 + 0.1 - 0.1; 0 + 0.3 - 0.1]
     = List.length (cavity_points Example.ring_harmonic None).
Proof.
  split; [split; [exact harmonic_not_single | exact harmonic_outcome]|].
  exact (fallback_one_entry_per_cavity (env := Example.env)
           Example.ring_harmonic (Method INTEGRAL) None _
           harmonic_not_single harmonic_outcome).
Defined.

Lemma set_cavity_phase_single_frequency_fails_witness :
  single_frequency (env := Example.env) Example.ring_single
    (Some (resolved_cavpts Example.ring_single None None)) = true
  /\ outcome (set_cavity_phase (env := Example.env) Example.ring_single
                               (Method INTEGRAL) None None false)
     <> Ok (mkPhaseCall Example.ring_single None).
Proof.
  split; [reflexivity|].
  exact (set_cavity_phase_single_frequency_fails (env := Example.env)
           Example.ring_single (Method INTEGRAL) None None false
           (mkPhaseCall Example.ring_single None) eq_refl).
Defined.

Lemma single_cell_length :
  get_s_pos (Env := Example.env) Example.ring_single
            (List.length (elements Example.ring_single))
  = 1 + (0 + 0).
Proof. reflexivity. Qed.

Lemma single_cell_length_nonzero :
  get_s_pos (Env := Example.env) Example.ring_single
            (List.length (elements Example.ring_single)) <> 0.
Proof. rewrite single_cell_length; lra. Qed.

Lemma revolution_frequency_zero_dct_witness :
  get_s_pos (Env := Example.env) Example.ring_single
            (List.length (elements Example.ring_single)) <> 0
  /\ get_revolution_frequency (env := Example.env) Example.ring_single
                              (Some 1.0e-3) (Some 0)
     = get_revolution_frequency (env := Example.env) Example.ring_single
                                None None.
Proof.
  split; [exact single_cell_length_nonzero|].
  exact (revolution_frequency_zero_dct (env := Example.env)
           Example.ring_single (Some 1.0e-3) single_cell_length_nonzero).
Defined.

Lemma frequency_control_cases_witness :
  (radiation Example.ring_single = false
   /\ frequency_control (env := Example.env) (cav := Probe.cavity_access)
        (fun ring kw => ret (ring, kw)) Example.ring_single
        [("dp", VFloat 1.0e-3)]
      = ret (Some Example.ring_single, [("dp", VFloat 1.0e-3)]))
  /\ (radiation Example.ring_radiating = true
      /\ frequency_control (env := Example.env) (cav := Probe.cavity_access)
           (fun ring kw => ret (ring, kw)) Example.ring_radiating
           [("dp", VNone); ("keep_lattice", VBool true)]
         = ret (Some Example.ring_radiating, [("keep_lattice", VBool true)])).
Proof.
  split.
  - split; [reflexivity|].
    exact (proj1 (frequency_control_cases (env := Example.env)
                    (cav := Probe.cavity_access)
                    (fun ring kw => ret (ring, kw)) Example.ring_single
                    [("dp", VFloat 1.0e-3)])
                 eq_refl).
  - split; [reflexivity|].
    exact (proj1 (proj2 (frequency_control_cases (env := Example.env)
                           (cav := Probe.cavity_access)
                           (fun ring kw => ret (ring, kw))
                           Example.ring_radiating
                           [("dp", VNone); ("keep_lattice", VBool true)]))
                 eq_refl).
Defined.

Lemma frequency_control_df_only_witness :
  (radiation Example.ring_radiating = true
   /\ kw_unset "dp" [("df", VFloat 100)] = true
   /\ kw_unset "dct" [("df", VFloat 100)] = true
   /\ kw_get "df" [("df", VFloat 100)] = Some (VFloat 100))
  /\ frequency_control (env := Example.env) (cav := Probe.cavity_access)
       (fun ring kw => ret (ring, kw)) Example.ring_radiating
       [("df", VFloat 100)]
     = (ring' <- lift (set_cavity (CavityAccess := Probe.cavity_access)
                         Example.ring_radiating
                         (beta Example.ring_radiating
                          * clight (Env := Example.env)
                          / get_s_pos (Env := Example.env)
                              Example.ring_radiating
                              (List.length (elements Example.ring_radiating))
                          / IZR (periodicity Example.ring_radiating)
                          * IZR (harmonic_number
                                   (CavityAccess := Probe.cavity_access)
                                   Example.ring_radiating))
                         [("df", VFloat 100); ("copy", VBool true)]);;
        ret (ring', without_control_keys [("df", VFloat 100)])).
Proof.
  split; [repeat split|].
  exact (frequency_control_df_only (env := Example.env)
           (cav := Probe.cavity_access) (fun ring kw => ret (ring, kw))
           Example.ring_radiating [("df", VFloat 100)] 100
           eq_refl eq_refl eq_refl eq_refl).
Defined.

Lemma set_rf_frequency_harmonic_witness :
  (Some 1.0e-3 <> None (A := R))
  /\ log (set_rf_frequency (env := Example.env) (cav := Probe.cavity_access)
            Example.ring_single None (Some 0.01) (Some 1.0e-3) [])
     = [].
Proof.
  assert (H : Some 1.0e-3 <> None (A := R)) by discriminate.
  split; [exact H|].
  exact (proj2 (proj2 (set_rf_frequency_harmonic (env := Example.env)
                         (cav := Probe.cavity_access) Example.ring_single []))
               None (Some 0.01) (Some 1.0e-3) (or_intror H)).
Defined.
